(** * dbus._dbus: the shared-connection registry of [Bus]

    A shallow embedding of [Bus.__new__] and [Bus.close] from
    [dbus/_dbus.py], together with the three subclasses and the static
    getters that funnel into [Bus.__new__].

    Python objects are references into a heap; the class attribute
    [Bus._shared_instances] is one dictionary, shared by [Bus] and its
    three subclasses (none of them rebinds the attribute, so
    [cls._shared_instances] and [self.__class__._shared_instances]
    always resolve to the dictionary created in the body of [Bus]).
    Every access to that dictionary and every call into the transport
    layer is recorded in a trace, so that statements such as "does not
    touch the registry" or "constructs no connection" can be read off
    the run. *)

From stdpp Require Import gmap list strings.
From Stdlib Require Import ZArith Lia.
From Stdlib Require Strings.HexString.

Local Open Scope Z_scope.

(** ** Data model *)

(** Object identity: [a is b] is equality of references. *)
Abbreviation ref := nat (only parsing).

(** A main loop handed to the transport layer; it is passed through
    unchanged and never inspected here. *)
Abbreviation mainloop_ref := nat (only parsing).

(** The classes of the module. [Bus.__new__] only ever instantiates the
    three subclasses, but [cls] may be [Bus] itself. *)
Inductive py_class := cls_Bus | cls_SessionBus | cls_SystemBus | cls_StarterBus.

(** The values that a caller can pass as [bus_type]. The docstring asks
    for one of the three integer constants, but Python accepts any
    object. [PyInt] stands for [int], [long] and [bool] ([True] is [1]
    and [False] is [0]); floating-point numbers are left out. *)
#[local] Set Warnings "-register-all".
Inductive py_value :=
| PyInt (z : Z)
| PyNone
| PyStr (s : string)
| PyTuple (items : list py_value)
| PyList (items : list py_value).

(** [hash(v)] succeeds: lists are unhashable, and a tuple is hashable
    when all its items are. *)
Fixpoint hashable (v : py_value) : bool :=
  match v with
  | PyList _ => false
  | PyTuple items => forallb hashable items
  | _ => true
  end.

(** What ['invalid bus_type %s' % v] prints in place of [%s]: a tuple on
    the right of [%] is taken as the list of arguments, so a tuple of
    one item prints that item and any other tuple makes the formatting
    fail with [TypeError]; every other value prints as itself. *)
Definition format_arg (v : py_value) : option py_value :=
  match v with
  | PyTuple [x] => Some x
  | PyTuple _ => None
  | _ => Some v
  end.

(** The exceptions that the modelled code can raise. *)
Inductive exn :=
| ValueError (shown : py_value)   (* 'invalid bus_type %s' % bus_type *)
| TypeError (v : py_value)        (* unhashable key, or formatting failed *)
| KeyError (key : Z)              (* unguarded dictionary access *)
| AttributeError (self : ref)     (* self._bus_type not set *)
| ConnectError (code : nat).      (* whatever BusConnection.__new__ raises *)

(** What the transport layer does when asked for a new connection. *)
Inductive transport := ConnOk | ConnRaises (e : exn).

(** An instance produced by [BusConnection.__new__]. [_bus_type] is an
    instance attribute that [Bus.__new__] sets after construction;
    [closed] is the state of the underlying connection. *)
Record BusObj := mkBusObj {
  obj_class : py_class;
  _bus_type : option Z;
  closed : bool
}.

(** Observable steps: accesses to [_shared_instances] and calls into the
    transport layer. *)
Inductive event :=
| EvContains (key : Z)                      (* key in _shared_instances *)
| EvContainsOther (key : py_value)          (* the same, for a key that is no integer *)
| EvGetItem (key : Z)                       (* _shared_instances[key] *)
| EvSetItem (key : Z) (o : ref)             (* _shared_instances[key] = o *)
| EvDelItem (key : Z)                       (* del _shared_instances[key] *)
| EvConnect (subclass : py_class) (bus_type : Z) (mainloop : option mainloop_ref)
| EvTransportClose (o : ref).               (* super(Bus, self).close() *)

(** The process state. The trace lists the most recent event first. *)
Record State := mkState {
  _shared_instances : gmap Z ref;
  heap : list BusObj;
  trace : list event
}.

(** State of a freshly imported module: [_shared_instances = {}]. *)
Definition initial_state : State :=
  {| _shared_instances := ∅; heap := []; trace := [] |}.

(** ** A state-and-exception monad

    A raised exception keeps every mutation made before it, as in
    Python. *)
Inductive result (A : Type) :=
| Return (a : A)
| Raise (e : exn).
Arguments Return {A} a.
Arguments Raise {A} e.

Definition M (A : Type) : Type := State -> result A * State.

Definition ret {A} (a : A) : M A := fun s => (Return a, s).

Definition raise {A} (e : exn) : M A := fun s => (Raise e, s).

Definition bind {A B} (m : M A) (k : A -> M B) : M B :=
  fun s =>
    match m s with
    | (Return a, s') => k a s'
    | (Raise e, s') => (Raise e, s')
    end.

Notation "x <- m ;; k" := (bind m (fun x => k))
  (at level 100, m at next level, right associativity).
Notation "m ;;; k" := (bind m (fun _ => k))
  (at level 100, right associativity).

Definition log (e : event) : M unit :=
  fun s => (Return tt, {| _shared_instances := _shared_instances s;
                          heap := heap s;
                          trace := e :: trace s |}).

(** ** Dictionary operations on [_shared_instances] *)

Definition dict_contains (key : Z) : M bool :=
  log (EvContains key) ;;;
  fun s => (Return (bool_decide (is_Some (_shared_instances s !! key))), s).

Definition dict_getitem (key : Z) : M ref :=
  log (EvGetItem key) ;;;
  fun s => match _shared_instances s !! key with
           | Some o => (Return o, s)
           | None => (Raise (KeyError key), s)
           end.

Definition dict_setitem (key : Z) (o : ref) : M unit :=
  log (EvSetItem key o) ;;;
  fun s => (Return tt, {| _shared_instances := <[key := o]> (_shared_instances s);
                          heap := heap s;
                          trace := trace s |}).

Definition dict_delitem (key : Z) : M unit :=
  log (EvDelItem key) ;;;
  fun s => match _shared_instances s !! key with
           | Some _ => (Return tt, {| _shared_instances := delete key (_shared_instances s);
                                      heap := heap s;
                                      trace := trace s |})
           | None => (Raise (KeyError key), s)
           end.

(** ** Instance attributes *)

Definition set_bus_type (bus_type : Z) (o : BusObj) : BusObj :=
  {| obj_class := obj_class o; _bus_type := Some bus_type; closed := closed o |}.

Definition mark_closed (o : BusObj) : BusObj :=
  {| obj_class := obj_class o; _bus_type := _bus_type o; closed := true |}.

(** [bus._bus_type = bus_type] *)
Definition setattr_bus_type (bus : ref) (bus_type : Z) : M unit :=
  fun s => (Return tt,
            {| _shared_instances := _shared_instances s;
               heap := alter (set_bus_type bus_type) bus (heap s);
               trace := trace s |}).

(** [self._bus_type]. A reference that denotes no object cannot occur in
    a run of the program; it is answered like a missing attribute. *)
Definition getattr_bus_type (self : ref) : M Z :=
  fun s => match heap s !! self with
           | Some {| _bus_type := Some t |} => (Return t, s)
           | _ => (Raise (AttributeError self), s)
           end.

(** ** The transport layer *)

(** Modelled from the spec: [BusConnection.__new__] lives in [dbus/bus.py],
    which is not part of the sources at hand. Following the spec's
    [build_connection(kind, loop) -> Connection | Error], it either
    raises or returns a new, open connection object of the requested
    subclass; which of the two happens is the argument [w]. *)
Definition BusConnection_new (w : transport) (subclass : py_class) (bus_type : Z)
    (mainloop : option mainloop_ref) : M ref :=
  log (EvConnect subclass bus_type mainloop) ;;;
  match w with
  | ConnRaises e => raise e
  | ConnOk =>
      fun s => (Return (length (heap s)),
                {| _shared_instances := _shared_instances s;
                   heap := heap s ++ [{| obj_class := subclass;
                                         _bus_type := None;
                                         closed := false |}];
                   trace := trace s |})
  end.

(** Modelled from the spec: [Connection.close], reached through
    [super(Bus, self).close()], is the spec's transport-close operation;
    it marks the underlying connection closed. *)
Definition Connection_close (self : ref) : M unit :=
  log (EvTransportClose self) ;;;
  fun s => (Return tt,
            {| _shared_instances := _shared_instances s;
               heap := alter mark_closed self (heap s);
               trace := trace s |}).

(** Values of the bus-type constants in libdbus' [DBusBusType], used
    when a concrete run is evaluated. *)
Definition DBUS_BUS_SESSION : Z := 0.
Definition DBUS_BUS_SYSTEM : Z := 1.
Definition DBUS_BUS_STARTER : Z := 2.

(** ** The module proper *)

Section Bus.

(** The bus-type constants come from the extension module
    [_dbus_bindings]; the development is parametric in their values. *)
Variables BUS_SESSION BUS_SYSTEM BUS_STARTER : Z.

(** [BusConnection.TYPE_SESSION] and friends alias the constants. *)
Definition TYPE_SESSION : Z := BUS_SESSION.
Definition TYPE_SYSTEM : Z := BUS_SYSTEM.
Definition TYPE_STARTER : Z := BUS_STARTER.

(** Lines 98-105: the [if]/[elif] chain choosing the subclass. *)
Definition select_subclass (bus_type : Z) : M py_class :=
  if bus_type =? BUS_SESSION then ret cls_SessionBus
  else if bus_type =? BUS_SYSTEM then ret cls_SystemBus
  else if bus_type =? BUS_STARTER then ret cls_StarterBus
  else raise (ValueError (PyInt bus_type)).

(** [Bus.__new__(cls, bus_type, private, mainloop)], lines 90-114, for
    an integer [bus_type], which is what the docstring asks for;
    [Bus_new_any] below takes any value.
    [cls] serves only to reach [cls._shared_instances], which is the one
    dictionary of [Bus] whatever the class; [w] is what the transport
    layer will answer if the call gets as far as the constructor.
    [and] at line 90 does not evaluate the membership test of a private
    request. *)
Definition Bus_new (w : transport) (cls : py_class) (bus_type : Z) (private : bool)
    (mainloop : option mainloop_ref) : M ref :=
  hit <- (if negb private then dict_contains bus_type else ret false) ;;
  if hit then dict_getitem bus_type
  else
    subclass <- select_subclass bus_type ;;
    bus <- BusConnection_new w subclass bus_type mainloop ;;
    setattr_bus_type bus bus_type ;;;
    (if negb private then dict_setitem bus_type bus else ret tt) ;;;
    ret bus.

(** [Bus.__new__] on any argument. On an integer it is [Bus_new]. On
    any other value [v] in the range of [py_value]:
    - line 90, for a non-private request, hashes [v] for the membership
      test: an unhashable [v] raises [TypeError] there; a hashable one
      is looked up and not found, since the keys of [_shared_instances]
      are integers and no integer equals [v];
    - lines 98-103 compare [v] with the three integer constants, and no
      comparison holds;
    - line 105 formats the message of [ValueError], which fails with
      [TypeError] when [v] is a tuple of length other than one. *)
Definition Bus_new_any (w : transport) (cls : py_class) (bus_type : py_value)
    (private : bool) (mainloop : option mainloop_ref) : M ref :=
  match bus_type with
  | PyInt z => Bus_new w cls z private mainloop
  | _ =>
      (if negb private then
         if hashable bus_type then log (EvContainsOther bus_type)
         else raise (TypeError bus_type)
       else ret tt) ;;;
      match format_arg bus_type with
      | Some shown => raise (ValueError shown)
      | None => raise (TypeError bus_type)
      end
  end.

(** [Bus.close(self)], lines 116-120: the subscript at line 118 is
    unguarded, [is] compares references, and [super(Bus, self).close()]
    comes last. *)
Definition Bus_close (self : ref) : M unit :=
  t <- getattr_bus_type self ;;
  cur <- dict_getitem t ;;
  (if Nat.eqb cur self then dict_delitem t else ret tt) ;;;
  Connection_close self.

(** The subclasses' [__new__] (lines 186-237) and the static getters
    (lines 134-166), which instantiate the subclasses with the default
    [mainloop=None]. Neither [Bus] nor a subclass defines [__init__];
    what runs after [__new__] belongs to the connection layer. *)
Definition SystemBus_new (w : transport) (cls : py_class) (private : bool)
    (mainloop : option mainloop_ref) : M ref :=
  Bus_new w cls TYPE_SYSTEM private mainloop.

Definition SessionBus_new (w : transport) (cls : py_class) (private : bool)
    (mainloop : option mainloop_ref) : M ref :=
  Bus_new w cls TYPE_SESSION private mainloop.

Definition StarterBus_new (w : transport) (cls : py_class) (private : bool)
    (mainloop : option mainloop_ref) : M ref :=
  Bus_new w cls TYPE_STARTER private mainloop.

Definition get_session (w : transport) (private : bool) : M ref :=
  SessionBus_new w cls_SessionBus private None.

Definition get_system (w : transport) (private : bool) : M ref :=
  SystemBus_new w cls_SystemBus private None.

Definition get_starter (w : transport) (private : bool) : M ref :=
  StarterBus_new w cls_StarterBus private None.

(** [Bus.get_connection(self)], lines 122-128, which the property
    [_connection] (lines 129-132) also calls: it returns [self]. *)
Definition get_connection (self : ref) : M ref := ret self.

(** [self.__class__] *)
Definition getattr_class (self : ref) : M py_class :=
  fun s => match heap s !! self with
           | Some o => (Return (obj_class o), s)
           | None => (Raise (AttributeError self), s)
           end.

(** [cls.__name__] *)
Definition class_name (cls : py_class) : string :=
  match cls with
  | cls_Bus => "Bus"
  | cls_SessionBus => "SessionBus"
  | cls_SystemBus => "SystemBus"
  | cls_StarterBus => "StarterBus"
  end.

Section Repr.

(** [cls.__module__] is the name under which the module was imported,
    and [id(self)] is the interpreter's identity token of the object;
    [Bus.__repr__] prints both, and both are parameters here. *)
Variable module_name : string.
Variable id_of : ref -> Z.

(** Lines 169-176: the [if]/[elif] chain choosing the label. *)
Definition bus_name (bus_type : Z) : string :=
  if bus_type =? BUS_SESSION then "session"
  else if bus_type =? BUS_SYSTEM then "system"
  else if bus_type =? BUS_STARTER then "starter"
  else "unknown bus type".

(** [Bus.__repr__(self)], lines 168-180. The format
    ['<%s.%s (%s) at %#x>'] prints the identity token in lower-case
    hexadecimal with the prefix [0x], which is what [HexString.of_Z]
    produces. *)
Definition Bus_repr (self : ref) : M string :=
  t <- getattr_bus_type self ;;
  cls <- getattr_class self ;;
  ret ("<" +:+ module_name +:+ "." +:+ class_name cls +:+ " (" +:+ bus_name t
       +:+ ") at " +:+ HexString.of_Z (id_of self) +:+ ">").

(** [__str__ = __repr__], line 181. *)
Definition Bus_str : ref -> M string := Bus_repr.

End Repr.

(** ** Callers

    What application code can do with the module: call one of the
    constructors or static getters, or call [close] on a handle it
    holds. Exceptions are the caller's to handle; the process goes on.
    [Call_Bus] is [Bus(bus_type, ...)] with an integer, [Call_Bus_any]
    the same call with any value. *)
Inductive call :=
| Call_Bus (w : transport) (bus_type : Z) (private : bool) (mainloop : option mainloop_ref)
| Call_Bus_any (w : transport) (bus_type : py_value) (private : bool)
    (mainloop : option mainloop_ref)
| Call_SessionBus (w : transport) (private : bool) (mainloop : option mainloop_ref)
| Call_SystemBus (w : transport) (private : bool) (mainloop : option mainloop_ref)
| Call_StarterBus (w : transport) (private : bool) (mainloop : option mainloop_ref)
| Call_get_session (w : transport) (private : bool)
| Call_get_system (w : transport) (private : bool)
| Call_get_starter (w : transport) (private : bool)
| Call_close (self : ref).

Definition is_close (c : call) : bool :=
  match c with Call_close _ => true | _ => false end.

(** The state after a call, whatever it returned or raised. *)
Definition perform (c : call) (s : State) : State :=
  match c with
  | Call_Bus w bus_type private mainloop => snd (Bus_new w cls_Bus bus_type private mainloop s)
  | Call_Bus_any w bus_type private mainloop =>
      snd (Bus_new_any w cls_Bus bus_type private mainloop s)
  | Call_SessionBus w private mainloop => snd (SessionBus_new w cls_SessionBus private mainloop s)
  | Call_SystemBus w private mainloop => snd (SystemBus_new w cls_SystemBus private mainloop s)
  | Call_StarterBus w private mainloop => snd (StarterBus_new w cls_StarterBus private mainloop s)
  | Call_get_session w private => snd (get_session w private s)
  | Call_get_system w private => snd (get_system w private s)
  | Call_get_starter w private => snd (get_starter w private s)
  | Call_close self => snd (Bus_close self s)
  end.

(** A call together with what it hands back: the handle for a
    constructor or getter, nothing for [close]. *)
Definition invoke (c : call) : M (option ref) :=
  match c with
  | Call_Bus w bus_type private mainloop =>
      a <- Bus_new w cls_Bus bus_type private mainloop ;; ret (Some a)
  | Call_Bus_any w bus_type private mainloop =>
      a <- Bus_new_any w cls_Bus bus_type private mainloop ;; ret (Some a)
  | Call_SessionBus w private mainloop =>
      a <- SessionBus_new w cls_SessionBus private mainloop ;; ret (Some a)
  | Call_SystemBus w private mainloop =>
      a <- SystemBus_new w cls_SystemBus private mainloop ;; ret (Some a)
  | Call_StarterBus w private mainloop =>
      a <- StarterBus_new w cls_StarterBus private mainloop ;; ret (Some a)
  | Call_get_session w private => a <- get_session w private ;; ret (Some a)
  | Call_get_system w private => a <- get_system w private ;; ret (Some a)
  | Call_get_starter w private => a <- get_starter w private ;; ret (Some a)
  | Call_close self => Bus_close self ;;; ret None
  end.

(** The bus type and the privacy flag that a constructor or getter call
    passes to [Bus.__new__]. *)
Definition acquisition_of (c : call) : option (Z * bool) :=
  match c with
  | Call_Bus _ bus_type private _ => Some (bus_type, private)
  | Call_Bus_any _ (PyInt bus_type) private _ => Some (bus_type, private)
  | Call_Bus_any _ _ _ _ => None
  | Call_SessionBus _ private _ | Call_get_session _ private => Some (TYPE_SESSION, private)
  | Call_SystemBus _ private _ | Call_get_system _ private => Some (TYPE_SYSTEM, private)
  | Call_StarterBus _ private _ | Call_get_starter _ private => Some (TYPE_STARTER, private)
  | Call_close _ => None
  end.

(** A caller can only close an object that exists. *)
Definition in_scope (c : call) (s : State) : bool :=
  match c with
  | Call_close self => bool_decide (self < length (heap s))%nat
  | _ => true
  end.

(** Runs a sequence of calls; [None] when some [close] names a
    reference that denotes no object at that point. *)
Fixpoint run_script (cs : list call) (s : State) : option State :=
  match cs with
  | [] => Some s
  | c :: cs' => if in_scope c s then run_script cs' (perform c s) else None
  end.

Definition reachable (s : State) : Prop :=
  exists cs, run_script cs initial_state = Some s.

(** The handles on which the calls of a script invoke [close]. *)
Fixpoint closes (cs : list call) : list ref :=
  match cs with
  | [] => []
  | Call_close self :: cs' => self :: closes cs'
  | _ :: cs' => closes cs'
  end.

(** ** Reading a trace *)

Definition is_connect (e : event) : bool :=
  match e with EvConnect _ _ _ => true | _ => false end.

Definition is_registry_access (e : event) : bool :=
  match e with
  | EvContains _ | EvContainsOther _ | EvGetItem _ | EvSetItem _ _ | EvDelItem _ => true
  | _ => false
  end.

Definition is_registry_write (e : event) : bool :=
  match e with
  | EvSetItem _ _ | EvDelItem _ => true
  | _ => false
  end.

Definition connect_count (tr : list event) : nat :=
  length (List.filter is_connect tr).

(** ** Threads

    [Bus.__new__] takes no lock, and the interpreter may switch threads
    between any two of its statements. The model lets a switch happen
    at three of those places only: after the membership test of line
    90, and before and after the insertion of lines 111-112. A call in
    progress is at one of the following points; a step runs the
    statements up to the next point. *)
Record request := mkRequest {
  rq_w : transport;
  rq_cls : py_class;
  rq_bus_type : Z;
  rq_private : bool;
  rq_mainloop : option mainloop_ref
}.

Inductive progress :=
| AtTest                      (* before line 90 *)
| AtFetch                     (* before line 91 *)
| AtBuild                     (* before line 98 *)
| AtPublish (bus : ref)       (* before line 111 *)
| Finished (r : result ref).

Definition step_thread (rq : request) (p : progress) (s : State) : progress * State :=
  match p with
  | AtTest =>
      match (if negb (rq_private rq) then dict_contains (rq_bus_type rq) else ret false) s with
      | (Return true, s') => (AtFetch, s')
      | (Return false, s') => (AtBuild, s')
      | (Raise e, s') => (Finished (Raise e), s')
      end
  | AtFetch =>
      match dict_getitem (rq_bus_type rq) s with
      | (r, s') => (Finished r, s')
      end
  | AtBuild =>
      match (subclass <- select_subclass (rq_bus_type rq) ;;
             bus <- BusConnection_new (rq_w rq) subclass (rq_bus_type rq) (rq_mainloop rq) ;;
             setattr_bus_type bus (rq_bus_type rq) ;;;
             ret bus) s with
      | (Return bus, s') => (AtPublish bus, s')
      | (Raise e, s') => (Finished (Raise e), s')
      end
  | AtPublish bus =>
      match ((if negb (rq_private rq) then dict_setitem (rq_bus_type rq) bus else ret tt) ;;;
             ret bus) s with
      | (r, s') => (Finished r, s')
      end
  | Finished r => (Finished r, s)
  end.

(** [n] steps of one thread, with no other thread in between. *)
Fixpoint run_thread (n : nat) (rq : request) (p : progress) (s : State)
    : progress * State :=
  match n with
  | O => (p, s)
  | S n' => let '(p', s') := step_thread rq p s in run_thread n' rq p' s'
  end.

Abbreviation thread := (request * progress)%type (only parsing).

Definition start (rq : request) : thread := (rq, AtTest).

Definition outcome (t : thread) : option (result ref) :=
  match snd t with Finished r => Some r | _ => None end.

(** A schedule names, step by step, the thread that runs next. *)
Fixpoint run_schedule (sched : list nat) (pool : list thread) (s : State)
    : list thread * State :=
  match sched with
  | [] => (pool, s)
  | i :: rest =>
      match pool !! i with
      | Some (rq, p) =>
          let '(p', s') := step_thread rq p s in
          run_schedule rest (<[i := (rq, p')]> pool) s'
      | None => run_schedule rest pool s
      end
  end.

(** ** Vocabulary of the statements *)

(** The three recognised bus types. *)
Definition valid_bus_type (k : Z) : Prop :=
  k = BUS_SESSION \/ k = BUS_SYSTEM \/ k = BUS_STARTER.

(** [s] with its trace replaced: the same registry and the same heap. *)
Definition with_trace (s : State) (tr : list event) : State :=
  {| _shared_instances := _shared_instances s; heap := heap s; trace := tr |}.

(** The registry events of a call that gets past line 90 without a hit:
    the membership test, made only for a non-private request, and the
    insertion, likewise. *)
Definition probe (private : bool) (k : Z) : list event :=
  if private then [] else [EvContains k].

(** The registry event of line 90 for a key that is no integer: none
    for a private request, and none when hashing the key fails. *)
Definition probe_value (private : bool) (v : py_value) : list event :=
  if private then [] else if hashable v then [EvContainsOther v] else [].

Definition publish (private : bool) (k : Z) (bus : ref) : list event :=
  if private then [] else [EvSetItem k bus].

(** The object is the registry's entry for some bus type. *)
Definition registered (s : State) (o : ref) : Prop :=
  exists k, _shared_instances s !! k = Some o.

(** What every reachable state satisfies: a registry entry is keyed by a
    recognised bus type and holds an existing, open object whose
    [_bus_type] is its key. *)
Definition wf (s : State) : Prop :=
  forall k o, _shared_instances s !! k = Some o ->
    valid_bus_type k /\
    exists obj, heap s !! o = Some obj /\ _bus_type obj = Some k /\ closed obj = false.

(** Every object carries a [_bus_type], and its class is the one that
    lines 98-103 choose for that bus type. *)
Definition heap_typed (s : State) : Prop :=
  forall o obj, heap s !! o = Some obj ->
    exists t, _bus_type obj = Some t /\
              forall s', select_subclass t s' = (Return (obj_class obj), s').

(** The label that [__repr__] prints for an instance of each class. *)
Definition class_label (cls : py_class) : string :=
  match cls with
  | cls_SessionBus => "session"
  | cls_SystemBus => "system"
  | cls_StarterBus => "starter"
  | cls_Bus => "unknown bus type"
  end.

Definition is_transport_close (e : event) : bool :=
  match e with EvTransportClose _ => true | _ => false end.

Definition transport_close_count (tr : list event) : nat :=
  length (List.filter is_transport_close tr).

(** [close] on [self] in state [s] closes the underlying connection
    without any access to the registry. *)
Definition close_ignores_registry (self : ref) (s : State) : Prop :=
  exists s' added,
    Bus_close self s = (Return tt, s') /\
    trace s' = added ++ trace s /\
    Forall (fun e => is_registry_access e = false) added /\
    EvTransportClose self ∈ added.

(** The threads of [pool], run from [s] to [s'], caused exactly one call
    of the connection constructor and all hold the same handle. *)
Definition single_connection (pool : list thread) (s s' : State) : Prop :=
  connect_count (trace s') = S (connect_count (trace s)) /\
  exists h, Forall (fun t => outcome t = Some (Return h)) pool.

(** The handle that a thread holds: the object it has built and is
    about to register, or the one its call has returned. *)
Definition held_handle (t : thread) : option ref :=
  match snd t with
  | AtPublish bus => Some bus
  | Finished (Return h) => Some h
  | _ => None
  end.

(** The handle a thread holds is an open object of the bus type that
    the thread asked for, and that bus type is a recognised one. *)
Definition thread_ok (s : State) (t : thread) : Prop :=
  forall h, held_handle t = Some h ->
    valid_bus_type (rq_bus_type (fst t)) /\
    exists obj, heap s !! h = Some obj /\
                _bus_type obj = Some (rq_bus_type (fst t)) /\ closed obj = false.

(** Whether a thread's call may still reach the connection
    constructor: it has not yet passed lines 98-107. *)
Definition may_connect (t : thread) : nat :=
  match snd t with
  | AtTest | AtBuild => 1
  | _ => 0
  end.

(** A request for the shared connection of bus type [k] that has not
    yet tested the registry, or has found the entry, or has returned
    the handle [h]. *)
Definition settled (k : Z) (h : ref) (t : thread) : Prop :=
  rq_bus_type (fst t) = k /\ rq_private (fst t) = false /\
  (snd t = AtTest \/ snd t = AtFetch \/ snd t = Finished (Return h)).

(** ** Facts about the monadic building blocks *)

Lemma select_subclass_valid k :
  valid_bus_type k -> exists sub, forall s, select_subclass k s = (Return sub, s).
Proof.
  unfold valid_bus_type, select_subclass. intros Hk.
  destruct (Z.eqb_spec k BUS_SESSION); [by eexists|].
  destruct (Z.eqb_spec k BUS_SYSTEM); [by eexists|].
  destruct (Z.eqb_spec k BUS_STARTER); [by eexists|].
  by destruct Hk as [?|[?|?]].
Qed.

Lemma select_subclass_invalid k s :
  ~ valid_bus_type k -> select_subclass k s = (Raise (ValueError (PyInt k)), s).
Proof.
  unfold valid_bus_type, select_subclass. intros Hk.
  destruct (Z.eqb_spec k BUS_SESSION); [tauto|].
  destruct (Z.eqb_spec k BUS_SYSTEM); [tauto|].
  destruct (Z.eqb_spec k BUS_STARTER); [tauto|].
  done.
Qed.

Lemma valid_bus_type_dec k : valid_bus_type k \/ ~ valid_bus_type k.
Proof. unfold valid_bus_type. lia. Qed.

Ltac unfold_ops :=
  cbv beta iota delta [Bus_new Bus_close bind ret raise dict_contains dict_getitem
    dict_setitem dict_delitem setattr_bus_type getattr_bus_type
    BusConnection_new Connection_close log with_trace probe publish] in *;
  simpl in *.

(** The four ways through [Bus.__new__]. *)

Lemma Bus_new_hit w cls k loop s o :
  _shared_instances s !! k = Some o ->
  Bus_new w cls k false loop s
  = (Return o, with_trace s (EvGetItem k :: EvContains k :: trace s)).
Proof.
  intros Hk. unfold_ops.
  rewrite bool_decide_eq_true_2 by (rewrite Hk; eauto).
  simpl. by rewrite Hk.
Qed.

Lemma Bus_new_invalid w cls k private loop s :
  ~ valid_bus_type k ->
  private = true \/ _shared_instances s !! k = None ->
  Bus_new w cls k private loop s
  = (Raise (ValueError (PyInt k)), with_trace s (probe private k ++ trace s)).
Proof.
  intros Hk Hmiss. unfold Bus_new, bind.
  destruct private; simpl.
  - unfold_ops. rewrite select_subclass_invalid by done. by destruct s.
  - destruct Hmiss as [|Hmiss]; [done|]. unfold_ops.
    rewrite bool_decide_eq_false_2 by (rewrite Hmiss; intros [? ?]; done).
    by rewrite select_subclass_invalid.
Qed.

Lemma Bus_new_raises e cls k private loop s :
  valid_bus_type k ->
  private = true \/ _shared_instances s !! k = None ->
  exists sub,
    Bus_new (ConnRaises e) cls k private loop s
    = (Raise e, with_trace s (EvConnect sub k loop :: probe private k ++ trace s)).
Proof.
  intros Hk Hmiss. destruct (select_subclass_valid k Hk) as [sub Hsub].
  exists sub. unfold Bus_new, bind.
  destruct private; simpl.
  - unfold_ops. by rewrite Hsub.
  - destruct Hmiss as [|Hmiss]; [done|]. unfold_ops.
    rewrite bool_decide_eq_false_2 by (rewrite Hmiss; intros [? ?]; done).
    by rewrite Hsub.
Qed.

Lemma Bus_new_builds cls k private loop s :
  valid_bus_type k ->
  private = true \/ _shared_instances s !! k = None ->
  exists sub,
    Bus_new ConnOk cls k private loop s
    = (Return (length (heap s)),
       {| _shared_instances :=
            if private then _shared_instances s
            else <[k := length (heap s)]> (_shared_instances s);
          heap := heap s ++ [mkBusObj sub (Some k) false];
          trace := publish private k (length (heap s))
                   ++ EvConnect sub k loop :: probe private k ++ trace s |}).
Proof.
  intros Hk Hmiss. destruct (select_subclass_valid k Hk) as [sub Hsub].
  exists sub. unfold Bus_new, bind.
  destruct private; simpl.
  - unfold_ops. rewrite Hsub. simpl.
    rewrite alter_app_r_alt by lia. rewrite Nat.sub_diag. done.
  - destruct Hmiss as [|Hmiss]; [done|]. unfold_ops.
    rewrite bool_decide_eq_false_2 by (rewrite Hmiss; intros [? ?]; done).
    rewrite Hsub. simpl.
    rewrite alter_app_r_alt by lia. rewrite Nat.sub_diag. done.
Qed.

(** Every path through [Bus.__new__] either leaves registry and heap
    alone, or allocates one object at the end of the heap and, for a
    non-private request that missed, registers it. *)
Lemma Bus_new_cases w cls k private loop s :
  exists r s', Bus_new w cls k private loop s = (r, s') /\
    ((_shared_instances s' = _shared_instances s /\ heap s' = heap s /\
      (forall o, r = Return o -> private = false /\ _shared_instances s !! k = Some o))
     \/
     (exists sub, r = Return (length (heap s)) /\ valid_bus_type k /\ w = ConnOk /\
        heap s' = heap s ++ [mkBusObj sub (Some k) false] /\
        _shared_instances s' = (if private then _shared_instances s
                                else <[k := length (heap s)]> (_shared_instances s)) /\
        (private = false -> _shared_instances s !! k = None))).
Proof.
  destruct private eqn:Hp.
  - destruct (valid_bus_type_dec k) as [Hk|Hk].
    + destruct w as [|e].
      * destruct (Bus_new_builds cls k true loop s Hk) as [sub ->]; [by left|].
        do 2 eexists. split; [done|]. right. exists sub. naive_solver.
      * destruct (Bus_new_raises e cls k true loop s Hk) as [sub ->]; [by left|].
        do 2 eexists. split; [done|]. left. naive_solver.
    + rewrite Bus_new_invalid by auto.
      do 2 eexists. split; [done|]. left. naive_solver.
  - destruct (_shared_instances s !! k) as [o|] eqn:Hlk.
    + rewrite (Bus_new_hit _ _ _ _ _ o) by done.
      do 2 eexists. split; [done|]. left. naive_solver.
    + destruct (valid_bus_type_dec k) as [Hk|Hk].
      * destruct w as [|e].
        -- destruct (Bus_new_builds cls k false loop s Hk) as [sub ->]; [by right|].
           do 2 eexists. split; [done|]. right. exists sub. naive_solver.
        -- destruct (Bus_new_raises e cls k false loop s Hk) as [sub ->]; [by right|].
           do 2 eexists. split; [done|]. left. naive_solver.
      * rewrite Bus_new_invalid by auto.
        do 2 eexists. split; [done|]. left. naive_solver.
Qed.

(** The four ways through [Bus.close]. *)

Lemma Bus_close_no_attr self s :
  (forall obj, heap s !! self = Some obj -> _bus_type obj = None) ->
  Bus_close self s = (Raise (AttributeError self), s).
Proof.
  intros Hno. unfold_ops.
  destruct (heap s !! self) as [[c [t|] b]|] eqn:Hh; try done.
  by specialize (Hno _ eq_refl).
Qed.

Lemma Bus_close_no_entry self s obj t :
  heap s !! self = Some obj -> _bus_type obj = Some t ->
  _shared_instances s !! t = None ->
  Bus_close self s = (Raise (KeyError t), with_trace s (EvGetItem t :: trace s)).
Proof.
  intros Hh Ht Hreg. unfold_ops. rewrite Hh.
  destruct obj as [c t' b]; simpl in *; subst t'. simpl. by rewrite Hreg.
Qed.

Lemma Bus_close_current self s obj t :
  heap s !! self = Some obj -> _bus_type obj = Some t ->
  _shared_instances s !! t = Some self ->
  Bus_close self s
  = (Return tt,
     {| _shared_instances := delete t (_shared_instances s);
        heap := alter mark_closed self (heap s);
        trace := EvTransportClose self :: EvDelItem t :: EvGetItem t :: trace s |}).
Proof.
  intros Hh Ht Hreg. unfold_ops. rewrite Hh.
  destruct obj as [c t' b]; simpl in *; subst t'. simpl. rewrite Hreg.
  rewrite Nat.eqb_refl. simpl. by rewrite Hreg.
Qed.

Lemma Bus_close_other self s obj t cur :
  heap s !! self = Some obj -> _bus_type obj = Some t ->
  _shared_instances s !! t = Some cur -> cur <> self ->
  Bus_close self s
  = (Return tt,
     {| _shared_instances := _shared_instances s;
        heap := alter mark_closed self (heap s);
        trace := EvTransportClose self :: EvGetItem t :: trace s |}).
Proof.
  intros Hh Ht Hreg Hne. unfold_ops. rewrite Hh.
  destruct obj as [c t' b]; simpl in *; subst t'. simpl. rewrite Hreg.
  apply Nat.eqb_neq in Hne. by rewrite Hne.
Qed.

Lemma Bus_close_cases self s :
  exists r s', Bus_close self s = (r, s') /\
    (((exists e, r = Raise e) /\
      _shared_instances s' = _shared_instances s /\ heap s' = heap s)
     \/
     (r = Return tt /\ heap s' = alter mark_closed self (heap s) /\
      exists obj t cur,
        heap s !! self = Some obj /\ _bus_type obj = Some t /\
        _shared_instances s !! t = Some cur /\
        _shared_instances s' = (if decide (cur = self) then delete t (_shared_instances s)
                                else _shared_instances s))).
Proof.
  destruct (heap s !! self) as [obj|] eqn:Hh.
  - destruct (_bus_type obj) as [t|] eqn:Ht.
    + destruct (_shared_instances s !! t) as [cur|] eqn:Hreg.
      * destruct (decide (cur = self)) as [->|Hne].
        -- rewrite (Bus_close_current self s obj t) by done.
           do 2 eexists. split; [done|]. right. split_and!; try done.
           exists obj, t, self. by rewrite decide_True.
        -- rewrite (Bus_close_other self s obj t cur) by done.
           do 2 eexists. split; [done|]. right. split_and!; try done.
           exists obj, t, cur. by rewrite decide_False.
      * rewrite (Bus_close_no_entry self s obj t) by done.
        do 2 eexists. split; [done|]. left. naive_solver.
    + rewrite Bus_close_no_attr by naive_solver.
      do 2 eexists. split; [done|]. left. naive_solver.
  - rewrite Bus_close_no_attr by naive_solver.
    do 2 eexists. split; [done|]. left. naive_solver.
Qed.

(** ** Scripts *)

(** [Bus.__new__] on a value that is no integer: it raises, and only
    the trace changes. The error is [ValueError] when the call gets to
    format its message and the formatting succeeds, and [TypeError]
    otherwise. *)
Lemma Bus_new_any_other w cls v private loop s :
  (forall z, v <> PyInt z) ->
  exists e,
    Bus_new_any w cls v private loop s
    = (Raise e, with_trace s (probe_value private v ++ trace s)) /\
    (private = true \/ hashable v = true ->
     forall shown, format_arg v = Some shown -> e = ValueError shown) /\
    ((private = false /\ hashable v = false) \/ format_arg v = None ->
     e = TypeError v).
Proof.
  intros Hv.
  assert (Hbody : Bus_new_any w cls v private loop
                  = ((if negb private then
                        if hashable v then log (EvContainsOther v)
                        else raise (TypeError v)
                      else ret tt) ;;;
                     match format_arg v with
                     | Some shown => raise (ValueError shown)
                     | None => raise (TypeError v)
                     end)).
  { destruct v as [z| | |items|items]; [by destruct (Hv z)|reflexivity..]. }
  rewrite Hbody. unfold probe_value, bind, ret, raise, log, with_trace.
  destruct private, (hashable v), (format_arg v) as [shown|]; simpl;
    eexists; (split; [by destruct s|]); split; intros H;
    try (intros ? [= <-]); try done;
    try (by destruct H as [?|?]); try (by destruct H as [[? ?]|?]).
Qed.

Lemma perform_cases c s :
  (is_close c = false /\
   exists w cls k private loop, perform c s = snd (Bus_new w cls k private loop s))
  \/ (exists self, c = Call_close self /\ perform c s = snd (Bus_close self s))
  \/ (is_close c = false /\ exists tr, perform c s = with_trace s tr).
Proof.
  destruct c as [ | w v pr l | | | | | | | ]; simpl;
    try (left; split; [done|]; by do 5 eexists).
  - destruct v as [z| | |items|items];
      [left; split; [done|]; by do 5 eexists|..];
      right; right; (split; [done|]);
      match goal with
      | |- context [ Bus_new_any ?w ?c ?v ?p ?l ?s ] =>
          destruct (Bus_new_any_other w c v p l s) as (e & -> & _); [done|]
      end; by eexists.
  - right. left. by eexists.
Qed.

(** A property kept by every acquisition and by every [close] of an
    existing object holds along any script. *)
Lemma run_script_invariant (P : State -> Prop) :
  (forall s tr, P s -> P (with_trace s tr)) ->
  (forall w cls k private loop s, P s -> P (snd (Bus_new w cls k private loop s))) ->
  (forall self s, (self < length (heap s))%nat -> P s -> P (snd (Bus_close self s))) ->
  forall cs s s', P s -> run_script cs s = Some s' -> P s'.
Proof.
  intros Htr Hnew Hclose cs.
  induction cs as [|c cs IH]; intros s s' HP Hrun; simpl in Hrun.
  - by simplify_eq.
  - destruct (in_scope c s) eqn:Hscope; [|done].
    apply (IH (perform c s)); [|done].
    destruct (perform_cases c s)
      as [[_ (w & cls & k & pr & l & ->)]|[[self [-> ->]]|[_ [tr ->]]]].
    + by apply Hnew.
    + apply Hclose; [|done]. simpl in Hscope. by apply bool_decide_eq_true_1 in Hscope.
    + by apply Htr.
Qed.

(** ** The registry invariant *)

Lemma wf_initial : wf initial_state.
Proof. intros k o Hk. simpl in Hk. by rewrite lookup_empty in Hk. Qed.

Lemma wf_Bus_new w cls k private loop s :
  wf s -> wf (snd (Bus_new w cls k private loop s)).
Proof.
  intros Hwf.
  destruct (Bus_new_cases w cls k private loop s) as (r & s' & -> & Hcases). simpl.
  destruct Hcases as [(Hreg & Hheap & _)|(sub & _ & Hk & _ & Hheap & Hreg & Hmiss)].
  - intros k' o. rewrite Hreg, Hheap. apply Hwf.
  - intros k' o Hlk. rewrite Hreg in Hlk. rewrite Hheap.
    assert (Hold : _shared_instances s !! k' = Some o ->
              valid_bus_type k' /\
              exists obj, (heap s ++ [mkBusObj sub (Some k) false]) !! o = Some obj /\
                          _bus_type obj = Some k' /\ closed obj = false).
    { intros Hlk'. destruct (Hwf _ _ Hlk') as (Hv & obj & Ho & Hrest).
      split; [done|]. exists obj. split; [|done].
      rewrite lookup_app_l; [done|]. by eapply lookup_lt_Some. }
    destruct private; [by apply Hold|].
    destruct (decide (k = k')) as [<-|Hne].
    + rewrite lookup_insert_eq in Hlk. inversion Hlk; subst o.
      split; [done|]. exists (mkBusObj sub (Some k) false). split; [|done].
      rewrite lookup_app_r by lia. by rewrite Nat.sub_diag.
    + rewrite lookup_insert_ne in Hlk by done. by apply Hold.
Qed.

(** [close] only ever removes from the registry. *)
Lemma Bus_close_registry_shrinks self s k o :
  _shared_instances (snd (Bus_close self s)) !! k = Some o ->
  _shared_instances s !! k = Some o.
Proof.
  destruct (Bus_close_cases self s) as (r & s' & -> & Hcases). simpl.
  destruct Hcases as [(_ & -> & _)|(_ & _ & obj & t & cur & _ & _ & _ & ->)]; [done|].
  case_decide; [|done]. rewrite lookup_delete_Some. tauto.
Qed.

(** After [close], whether it returned or raised, the handle is not the
    registry's entry for any bus type. *)
Lemma Bus_close_unregisters self s :
  wf s -> ~ registered (snd (Bus_close self s)) self.
Proof.
  intros Hwf [k Hk].
  pose proof (Bus_close_registry_shrinks _ _ _ _ Hk) as Hk0.
  destruct (Hwf _ _ Hk0) as (_ & obj & Hh & Ht & _).
  destruct (_shared_instances s !! k) as [cur|] eqn:Hreg; [|done].
  inversion Hk0; subst cur.
  rewrite (Bus_close_current self s obj k) in Hk by done. simpl in Hk.
  by rewrite lookup_delete_eq in Hk.
Qed.

Lemma Bus_close_heap_length self s :
  length (heap (snd (Bus_close self s))) = length (heap s).
Proof.
  destruct (Bus_close_cases self s) as (r & s' & -> & Hcases). simpl.
  destruct Hcases as [(_ & _ & ->)|(_ & -> & _)]; [done|]. apply length_alter.
Qed.

Lemma wf_Bus_close self s :
  wf s -> wf (snd (Bus_close self s)).
Proof.
  intros Hwf k o Hk.
  assert (Hne : o <> self).
  { intros ->. apply (Bus_close_unregisters self s Hwf). by exists k. }
  apply Bus_close_registry_shrinks in Hk.
  destruct (Hwf _ _ Hk) as (Hv & obj & Hh & Hrest). split; [done|].
  exists obj. split; [|done].
  destruct (Bus_close_cases self s) as (r & s' & -> & Hcases). simpl.
  destruct Hcases as [(_ & _ & ->)|(_ & -> & _)]; [done|].
  by rewrite list_lookup_alter_ne.
Qed.

Lemma wf_run_script cs s s' :
  wf s -> run_script cs s = Some s' -> wf s'.
Proof.
  apply (run_script_invariant wf).
  - done.
  - intros. by apply wf_Bus_new.
  - intros. by apply wf_Bus_close.
Qed.

Lemma reachable_wf s : reachable s -> wf s.
Proof. intros [cs Hcs]. eapply wf_run_script; [apply wf_initial | done]. Qed.

Lemma reachable_run_script cs s s' :
  reachable s -> run_script cs s = Some s' -> reachable s'.
Proof.
  intros [cs0 Hcs0] Hrun. exists (cs0 ++ cs).
  revert Hcs0. generalize initial_state as s0.
  induction cs0 as [|c cs0 IH]; intros s0 Hcs0; simpl in *.
  - by simplify_eq.
  - destruct (in_scope c s0); [|done]. by apply IH.
Qed.

(** What an acquisition can do to the registry and to the heap. *)
Lemma Bus_new_registry w cls k private loop s k' o :
  _shared_instances (snd (Bus_new w cls k private loop s)) !! k' = Some o ->
  _shared_instances s !! k' = Some o \/
  (o = length (heap s) /\ k' = k /\ private = false /\ _shared_instances s !! k = None).
Proof.
  destruct (Bus_new_cases w cls k private loop s) as (r & s' & -> & Hcases). simpl.
  destruct Hcases as [(-> & _)|(sub & _ & _ & _ & _ & -> & Hmiss)]; [by left|].
  destruct private; [by left|].
  destruct (decide (k = k')) as [<-|Hne].
  - rewrite lookup_insert_eq. intros [= <-]. right. auto.
  - rewrite lookup_insert_ne by done. by left.
Qed.

Lemma Bus_new_heap_lookup w cls k private loop s o obj :
  heap s !! o = Some obj ->
  heap (snd (Bus_new w cls k private loop s)) !! o = Some obj.
Proof.
  intros Ho.
  destruct (Bus_new_cases w cls k private loop s) as (r & s' & -> & Hcases). simpl.
  destruct Hcases as [(_ & -> & _)|(sub & _ & _ & _ & -> & _)]; [done|].
  rewrite lookup_app_l; [done|]. by eapply lookup_lt_Some.
Qed.

Lemma Bus_new_heap_length w cls k private loop s :
  (length (heap s) <= length (heap (snd (Bus_new w cls k private loop s))))%nat.
Proof.
  destruct (Bus_new_cases w cls k private loop s) as (r & s' & -> & Hcases). simpl.
  destruct Hcases as [(_ & -> & _)|(sub & _ & _ & _ & -> & _)]; [done|].
  rewrite length_app. lia.
Qed.

(** A property kept by every acquisition holds along any script that
    closes nothing. *)
Lemma run_script_no_close (P : State -> Prop) :
  (forall s tr, P s -> P (with_trace s tr)) ->
  (forall w cls k private loop s, P s -> P (snd (Bus_new w cls k private loop s))) ->
  forall cs s s', closes cs = [] -> P s -> run_script cs s = Some s' -> P s'.
Proof.
  intros Htr Hnew cs.
  induction cs as [|c cs IH]; intros s s' Hcl HP Hrun; simpl in Hrun.
  - by simplify_eq.
  - destruct (in_scope c s); [|done].
    destruct (perform_cases c s)
      as [[Hc (w & cls & k & pr & l & Hp)]|[[self [-> _]]|[Hc [tr Hp]]]]; [|done|].
    + apply (IH (perform c s)); [|rewrite Hp; by apply Hnew|done].
      by destruct c.
    + apply (IH (perform c s)); [|rewrite Hp; by apply Htr|done].
      by destruct c.
Qed.

Lemma Bus_new_keeps_entry w cls k0 private loop s k a :
  _shared_instances s !! k = Some a ->
  _shared_instances (snd (Bus_new w cls k0 private loop s)) !! k = Some a.
Proof.
  intros Hk.
  destruct (Bus_new_cases w cls k0 private loop s) as (r & s' & -> & Hcases). simpl.
  destruct Hcases as [(-> & _)|(sub & _ & _ & _ & _ & -> & Hmiss)]; [done|].
  destruct private; [done|].
  rewrite lookup_insert_ne; [done|]. intros ->. by rewrite Hmiss in Hk.
Qed.

(** A non-private acquisition that returns a handle leaves that handle
    registered under the requested bus type. *)
Lemma Bus_new_shared_registered w cls k loop s a s' :
  Bus_new w cls k false loop s = (Return a, s') ->
  _shared_instances s' !! k = Some a.
Proof.
  intros Hnew.
  destruct (Bus_new_cases w cls k false loop s) as (r & s1 & Heq & Hcases).
  rewrite Hnew in Heq. simplify_eq.
  destruct Hcases as [(-> & _ & Hret)|(sub & [= ->] & _ & _ & _ & -> & _)].
  - by destruct (Hret a eq_refl).
  - by rewrite lookup_insert_eq.
Qed.

(** A [close] changes no object's [_bus_type]. *)
Lemma Bus_close_heap_lookup self s o obj :
  heap s !! o = Some obj ->
  exists obj', heap (snd (Bus_close self s)) !! o = Some obj' /\
               _bus_type obj' = _bus_type obj.
Proof.
  intros Ho.
  destruct (Bus_close_cases self s) as (r & s' & -> & Hcases). simpl.
  destruct Hcases as [(_ & _ & ->)|(_ & -> & _)]; [by exists obj|].
  destruct (decide (self = o)) as [->|Hne].
  - rewrite list_lookup_alter_eq, Ho. by exists (mark_closed obj).
  - rewrite list_lookup_alter_ne by done. by exists obj.
Qed.

Lemma run_script_bus_type cs s s' o t :
  (exists obj, heap s !! o = Some obj /\ _bus_type obj = Some t) ->
  run_script cs s = Some s' ->
  exists obj, heap s' !! o = Some obj /\ _bus_type obj = Some t.
Proof.
  apply (run_script_invariant
           (fun s => exists obj, heap s !! o = Some obj /\ _bus_type obj = Some t)).
  - done.
  - intros w cls k pr l s1 (obj & Ho & Ht). exists obj. split; [|done].
    by apply Bus_new_heap_lookup.
  - intros self s1 _ (obj & Ho & Ht).
    destruct (Bus_close_heap_lookup self s1 o obj Ho) as (obj' & Ho' & Ht').
    exists obj'. split; [done|]. congruence.
Qed.

(** An existing object that is not registered never becomes so: only a
    newly constructed object is ever inserted. *)
Lemma run_script_unregistered cs s s' o :
  (o < length (heap s))%nat -> ~ registered s o ->
  run_script cs s = Some s' ->
  ~ registered s' o.
Proof.
  intros Hlt Hno Hrun.
  cut ((o < length (heap s'))%nat /\ ~ registered s' o); [tauto|].
  revert Hrun. apply (run_script_invariant
    (fun s => (o < length (heap s))%nat /\ ~ registered s o)); [done| | |done].
  - intros w cls k pr l s1 [Hlt1 Hno1]. split.
    + pose proof (Bus_new_heap_length w cls k pr l s1). lia.
    + intros [k' Hk']. apply Bus_new_registry in Hk' as [Hk'|(-> & _)]; [|lia].
      apply Hno1. by exists k'.
  - intros self s1 _ [Hlt1 Hno1]. split.
    + by rewrite Bus_close_heap_length.
    + intros [k' Hk']. apply Bus_close_registry_shrinks in Hk'.
      apply Hno1. by exists k'.
Qed.

(** A private acquisition that returns has built a new object, at the
    end of the heap, and has left the registry alone. *)
Lemma Bus_new_private_returns w cls k loop s p s' :
  Bus_new w cls k true loop s = (Return p, s') ->
  p = length (heap s) /\ valid_bus_type k /\
  _shared_instances s' = _shared_instances s /\
  exists sub, heap s' = heap s ++ [mkBusObj sub (Some k) false].
Proof.
  intros Hnew.
  destruct (Bus_new_cases w cls k true loop s) as (r & s1 & Heq & Hcases).
  rewrite Hnew in Heq. simplify_eq.
  destruct Hcases as [(_ & _ & Hret)|(sub & [= ->] & Hk & _ & Hheap & Hreg & _)].
  - by destruct (Hret p eq_refl).
  - split_and!; try done. by exists sub.
Qed.

(** Closing the handle that a non-private acquisition has just returned
    evicts it. *)
Lemma close_after_shared_acquisition w cls k loop s0 s1 a :
  wf s0 ->
  Bus_new w cls k false loop s0 = (Return a, s1) ->
  valid_bus_type k /\ (a < length (heap s1))%nat /\ wf s1 /\
  Bus_close a s1
  = (Return tt,
     {| _shared_instances := delete k (_shared_instances s1);
        heap := alter mark_closed a (heap s1);
        trace := EvTransportClose a :: EvDelItem k :: EvGetItem k :: trace s1 |}).
Proof.
  intros Hwf Hnew.
  assert (Hwf1 : wf s1).
  { pose proof (wf_Bus_new w cls k false loop s0 Hwf) as H. by rewrite Hnew in H. }
  pose proof (Bus_new_shared_registered _ _ _ _ _ _ _ Hnew) as Hreg.
  destruct (Hwf1 _ _ Hreg) as (Hk & obj & Hh & Ht & _).
  split_and!; try done.
  - by eapply lookup_lt_Some.
  - by apply (Bus_close_current a s1 obj k).
Qed.

(** Along a script, no registered object is among the handles that
    have been closed, provided this holds at the start for a set [C] of
    existing objects. *)
Lemma run_script_closes cs :
  forall s s' (C : list ref),
    wf s ->
    Forall (fun o => (o < length (heap s))%nat) C ->
    (forall o, registered s o -> o ∉ C) ->
    run_script cs s = Some s' ->
    forall o, registered s' o -> (o ∉ C) /\ (o ∉ closes cs).
Proof.
  induction cs as [|c cs IH]; intros s s' C Hwf HC Hreg Hrun o Ho; simpl in Hrun.
  - simplify_eq. split; [by apply Hreg|]. simpl. apply not_elem_of_nil.
  - destruct (in_scope c s) eqn:Hscope; [|done].
    destruct (perform_cases c s)
      as [[Hc (w & cls & k & pr & l & Hp)]|[[self [-> Hp]]|[Hc [tr Hp]]]].
    + assert (Hcl : closes (c :: cs) = closes cs) by (by destruct c).
      rewrite Hcl. rewrite Hp in Hrun.
      apply (IH _ s' C) with (o := o) in Hrun; try done.
      * by apply wf_Bus_new.
      * eapply Forall_impl; [exact HC|]. simpl. intros x Hx.
        pose proof (Bus_new_heap_length w cls k pr l s). lia.
      * intros x [k' Hk']. apply Bus_new_registry in Hk' as [Hk'|(-> & _)].
        -- apply Hreg. by exists k'.
        -- intros Hin. rewrite Forall_forall in HC. specialize (HC _ Hin). lia.
    + simpl in Hscope. apply bool_decide_eq_true_1 in Hscope.
      rewrite Hp in Hrun. simpl.
      apply (IH _ s' (self :: C)) with (o := o) in Hrun; try done.
      * destruct Hrun as [Hnin Hnin']. rewrite not_elem_of_cons in *. tauto.
      * by apply wf_Bus_close.
      * rewrite Bus_close_heap_length. by constructor.
      * intros x Hx. rewrite not_elem_of_cons. split.
        -- intros ->. by apply (Bus_close_unregisters self s).
        -- apply Hreg. destruct Hx as [k' Hk'].
           apply Bus_close_registry_shrinks in Hk'. by exists k'.
    + assert (Hcl : closes (c :: cs) = closes cs) by (by destruct c).
      rewrite Hcl. rewrite Hp in Hrun.
      by apply (IH _ s' C) with (o := o) in Hrun.
Qed.

(** ** Threads *)

(** The steps of a thread, run without interruption, are the call: the
    points at which a thread may be preempted split [Bus.__new__] and
    change nothing else. *)
Lemma run_thread_Bus_new rq s :
  run_thread 3 rq AtTest s
  = (Finished (fst (Bus_new (rq_w rq) (rq_cls rq) (rq_bus_type rq) (rq_private rq)
                      (rq_mainloop rq) s)),
     snd (Bus_new (rq_w rq) (rq_cls rq) (rq_bus_type rq) (rq_private rq)
            (rq_mainloop rq) s)).
Proof.
  destruct rq as [w cls k pr l]. simpl.
  assert (Hsel : exists r, forall s', select_subclass k s' = (r, s')).
  { destruct (valid_bus_type_dec k) as [Hk|Hk].
    - destruct (select_subclass_valid k Hk) as [sub Hsub]. by exists (Return sub).
    - exists (Raise (ValueError (PyInt k))). intros s'. by apply select_subclass_invalid. }
  destruct Hsel as [rsel Hsel].
  destruct pr; [|destruct (_shared_instances s !! k) as [o|] eqn:Hlk];
    destruct rsel as [sub|e0]; destruct w as [|e];
    repeat progress (unfold_ops; rewrite ?Hsel, ?Hlk; simpl);
    reflexivity.
Qed.

Lemma run_schedule_app a b pool s :
  run_schedule (a ++ b) pool s
  = let '(pool', s') := run_schedule a pool s in run_schedule b pool' s'.
Proof.
  revert pool s. induction a as [|i a IH]; intros pool s; simpl.
  - by destruct (run_schedule b pool s).
  - destruct (pool !! i) as [[rq p]|]; [|apply IH].
    destruct (step_thread rq p s). apply IH.
Qed.

(** Three consecutive steps of a thread that is about to start. *)
Lemma run_schedule_block i pool rq s :
  pool !! i = Some (start rq) ->
  run_schedule [i; i; i] pool s
  = (<[i := (rq, fst (run_thread 3 rq AtTest s))]> pool,
     snd (run_thread 3 rq AtTest s)).
Proof.
  intros Hi. pose proof (lookup_lt_Some _ _ _ Hi) as Hlt.
  unfold start in Hi. cbn [run_schedule run_thread]. rewrite Hi.
  destruct (step_thread rq AtTest s) as [p1 s1].
  rewrite list_lookup_insert_eq by done.
  destruct (step_thread rq p1 s1) as [p2 s2].
  rewrite list_lookup_insert_eq by (by rewrite length_insert).
  destruct (step_thread rq p2 s2) as [p3 s3]. cbn [fst snd].
  by rewrite !list_insert_insert_eq.
Qed.

(** Once the bus type is registered, requests for it that have not
    yet tested the registry find the entry, however they interleave:
    none calls the constructor and each returns the registered
    handle. *)
Lemma step_thread_settled k h rq p s :
  _shared_instances s !! k = Some h ->
  settled k h (rq, p) ->
  _shared_instances (snd (step_thread rq p s)) !! k = Some h /\
  settled k h (rq, fst (step_thread rq p s)) /\
  connect_count (trace (snd (step_thread rq p s))) = connect_count (trace s).
Proof.
  intros Hreg (Hk & Hpr & Hp). destruct rq as [w cls k' pr l]. simpl in *. subst k' pr.
  unfold settled. simpl.
  destruct Hp as [->|[->| ->]]; simpl.
  - unfold_ops. rewrite bool_decide_eq_true_2 by (rewrite Hreg; eauto).
    simpl. split_and!; auto.
  - unfold_ops. rewrite Hreg. simpl. split_and!; auto.
  - split_and!; auto.
Qed.

Lemma run_schedule_settled k h sched :
  forall pool s,
    _shared_instances s !! k = Some h ->
    Forall (settled k h) pool ->
    _shared_instances (snd (run_schedule sched pool s)) !! k = Some h /\
    Forall (settled k h) (fst (run_schedule sched pool s)) /\
    connect_count (trace (snd (run_schedule sched pool s))) = connect_count (trace s).
Proof.
  induction sched as [|i sched IH]; intros pool s Hreg Hpool; simpl; [done|].
  destruct (pool !! i) as [[rq p]|] eqn:Hi; [|by apply IH].
  destruct (step_thread_settled k h rq p s Hreg) as (Hreg' & Hset' & Hcount).
  { rewrite Forall_forall in Hpool. apply Hpool. by eapply list_elem_of_lookup_2. }
  destruct (step_thread rq p s) as [p' s'] eqn:Hstep. simpl in *.
  destruct (IH (<[i := (rq, p')]> pool) s' Hreg') as (Hreg2 & Hpool2 & Hcount2).
  { by apply Forall_insert. }
  split_and!; [done|done|congruence].
Qed.

(** ** The claims *)

(** C1. Singleton property: for every bus type [k] (in particular
    Session, System and Starter), when a non-private call of
    [Bus.__new__] for [k] has returned the handle [a], then [a] is the
    entry of [k] in [_shared_instances], and it still is after any
    further calls that close nothing. A second non-private call for [k]
    then returns the very same reference [a]: it finds [k] in
    [_shared_instances] and returns the stored instance, with no call
    to the connection constructor and no change to registry or heap.
    From a reachable state, [a] denotes an existing, open object whose
    [_bus_type] is [k]. *)
Theorem singleton_shared_handle w1 w2 cls1 cls2 loop1 loop2 k mid s0 s1 s2 a :
  Bus_new w1 cls1 k false loop1 s0 = (Return a, s1) ->
  closes mid = [] ->
  run_script mid s1 = Some s2 ->
  _shared_instances s1 !! k = Some a /\
  _shared_instances s2 !! k = Some a /\
  Bus_new w2 cls2 k false loop2 s2
  = (Return a, with_trace s2 (EvGetItem k :: EvContains k :: trace s2)) /\
  (reachable s0 ->
   exists obj, heap s2 !! a = Some obj /\ _bus_type obj = Some k /\ closed obj = false).
Proof.
  intros Hfirst Hmid Hrun.
  pose proof (Bus_new_shared_registered _ _ _ _ _ _ _ Hfirst) as Hreg1.
  assert (Hreg2 : _shared_instances s2 !! k = Some a).
  { apply (run_script_no_close (fun s => _shared_instances s !! k = Some a))
      with (cs := mid) (s := s1); try done.
    intros. by apply Bus_new_keeps_entry. }
  split_and!; try done.
  - by apply Bus_new_hit.
  - intros Hs0.
    assert (Hwf1 : wf s1).
    { pose proof (wf_Bus_new w1 cls1 k false loop1 s0 (reachable_wf _ Hs0)) as H.
      by rewrite Hfirst in H. }
    destruct (wf_run_script _ _ _ Hwf1 Hrun _ _ Hreg2) as (_ & obj & Hh & Ht & Hc).
    by exists obj.
Qed.

(** C7. Failed construction: when the request reaches the connection
    constructor (the bus type is recognised and the request is private
    or finds no shared entry) and the constructor raises [e], the call
    raises [e] to its caller; registry and heap are as before the call,
    so no entry is registered for the requested bus type. *)
Theorem failed_construction_propagates e cls k private loop s :
  valid_bus_type k ->
  private = true \/ _shared_instances s !! k = None ->
  exists s',
    Bus_new (ConnRaises e) cls k private loop s = (Raise e, s') /\
    _shared_instances s' = _shared_instances s /\
    heap s' = heap s /\
    connect_count (trace s') = S (connect_count (trace s)) /\
    (private = false -> _shared_instances s' !! k = None).
Proof.
  intros Hk Hmiss.
  destruct (Bus_new_raises e cls k private loop s Hk Hmiss) as [sub ->].
  eexists. split; [done|]. simpl. split_and!; try done.
  - unfold connect_count, probe. by destruct private.
  - intros ->. by destruct Hmiss.
Qed.

(** C8, as the code has it. In every reachable state, a call of
    [Bus.__new__] with a [bus_type] that is none of [BUS_SESSION],
    [BUS_SYSTEM], [BUS_STARTER] raises, with either value of [private];
    registry and heap are unchanged and the connection constructor is
    not called. The error is [ValueError] whenever the call gets to
    format its message and the formatting succeeds: the request is
    private or [bus_type] is hashable, and [bus_type] is not a tuple of
    length other than one. In particular it is [ValueError] for every
    integer. *)
Theorem unrecognised_bus_type_rejected w cls v private loop s :
  reachable s ->
  v <> PyInt BUS_SESSION -> v <> PyInt BUS_SYSTEM -> v <> PyInt BUS_STARTER ->
  exists e s',
    Bus_new_any w cls v private loop s = (Raise e, s') /\
    _shared_instances s' = _shared_instances s /\
    heap s' = heap s /\
    connect_count (trace s') = connect_count (trace s) /\
    (private = true \/ hashable v = true ->
     forall shown, format_arg v = Some shown -> e = ValueError shown) /\
    (forall z, v = PyInt z -> e = ValueError (PyInt z)).
Proof.
  intros Hs H1 H2 H3.
  assert (Hcase : (exists z, v = PyInt z) \/ (forall z, v <> PyInt z)).
  { destruct v; [left; by eexists|right; done..]. }
  destruct Hcase as [[z ->]|Hother].
  - assert (Hk : ~ valid_bus_type z).
    { intros [->|[->| ->]]; congruence. }
    simpl. rewrite Bus_new_invalid; [|done|].
    + do 2 eexists. split; [done|]. simpl. split_and!; try done.
      * unfold connect_count, probe. by destruct private.
      * intros _ shown [= <-]. done.
      * by intros z' [= <-].
    + right. destruct (_shared_instances s !! z) as [o|] eqn:Hlk; [|done].
      destruct (reachable_wf s Hs z o Hlk) as [Hv _]. by destruct Hk.
  - destruct (Bus_new_any_other w cls v private loop s Hother) as (e & -> & Hval & _).
    do 2 eexists. split; [done|]. simpl. split_and!; try done.
    + unfold connect_count, probe_value. by destruct private, (hashable v).
    + intros z ->. by destruct (Hother z).
Qed.

(** C10. A handle whose bus type has no entry in [_shared_instances]:
    [close] raises [KeyError] at the dictionary lookup; the only event
    of the call is that lookup, so the transport close is not invoked,
    and registry and heap are unchanged. *)
Theorem close_without_entry_raises_KeyError self s obj t :
  heap s !! self = Some obj ->
  _bus_type obj = Some t ->
  _shared_instances s !! t = None ->
  exists s',
    Bus_close self s = (Raise (KeyError t), s') /\
    trace s' = EvGetItem t :: trace s /\
    heap s' = heap s /\
    _shared_instances s' = _shared_instances s.
Proof.
  intros Hh Ht Hreg.
  rewrite (Bus_close_no_entry self s obj t) by done.
  by eexists.
Qed.

(** C5. Eviction: in a reachable state, let a non-private acquisition
    of [k] return [A] and let [A] be closed. The close returns and
    removes the entry for [k]. The next non-private acquisition of [k],
    the transport permitting, calls the constructor once and returns a
    handle [B] that is a new object (it did not exist before the call)
    different from [A], and the registry's entry for [k] is then [B]. *)
Theorem eviction_then_fresh_instance wA clsA clsB loopA loopB k s0 s1 A :
  reachable s0 ->
  Bus_new wA clsA k false loopA s0 = (Return A, s1) ->
  exists s2 B s3,
    Bus_close A s1 = (Return tt, s2) /\
    _shared_instances s2 !! k = None /\
    Bus_new ConnOk clsB k false loopB s2 = (Return B, s3) /\
    B <> A /\
    heap s2 !! B = None /\ is_Some (heap s3 !! B) /\
    _shared_instances s3 !! k = Some B /\
    connect_count (trace s3) = S (connect_count (trace s2)).
Proof.
  intros Hs0 HA.
  destruct (close_after_shared_acquisition _ _ _ _ _ _ _ (reachable_wf _ Hs0) HA)
    as (Hk & Hlt & Hwf1 & Hclose).
  rewrite Hclose. eexists. 
  destruct (Bus_new_builds clsB k false loopB
              {| _shared_instances := delete k (_shared_instances s1);
                 heap := alter mark_closed A (heap s1);
                 trace := EvTransportClose A :: EvDelItem k :: EvGetItem k :: trace s1 |}
              Hk) as [sub Hbuild].
  { right. simpl. apply lookup_delete_eq. }
  simpl in Hbuild. rewrite length_alter in Hbuild.
  exists (length (heap s1)). eexists. split; [done|]. simpl.
  split; [apply lookup_delete_eq|]. split; [exact Hbuild|]. simpl.
  split_and!.
  - lia.
  - apply lookup_ge_None. by rewrite length_alter.
  - apply lookup_lt_is_Some. rewrite length_app, length_alter. simpl. lia.
  - apply lookup_insert_eq.
  - done.
Qed.

(** C2. Stale-close guard: in a reachable state, let a non-private
    acquisition of [k] return [A], let [A] be closed, and let a further
    non-private acquisition of [k] return [B]. A second [close] on the
    stale [A] returns without deleting anything: the identity test
    fails because [B] is not [A], the registry is unchanged and its
    entry for [k] is still [B]. *)
Theorem stale_close_keeps_replacement wA wB clsA clsB loopA loopB k s0 s1 s3 A B :
  reachable s0 ->
  Bus_new wA clsA k false loopA s0 = (Return A, s1) ->
  Bus_new wB clsB k false loopB (snd (Bus_close A s1)) = (Return B, s3) ->
  exists s4,
    Bus_close A s3 = (Return tt, s4) /\
    B <> A /\
    trace s4 = EvTransportClose A :: EvGetItem k :: trace s3 /\
    _shared_instances s4 = _shared_instances s3 /\
    _shared_instances s4 !! k = Some B.
Proof.
  intros Hs0 HA HB.
  destruct (close_after_shared_acquisition _ _ _ _ _ _ _ (reachable_wf _ Hs0) HA)
    as (Hk & Hlt & Hwf1 & Hclose).
  rewrite Hclose in HB. simpl in HB.
  pose proof (Bus_new_shared_registered _ _ _ _ _ _ _ HB) as HregB.
  destruct (Bus_new_cases wB clsB k false loopB
              {| _shared_instances := delete k (_shared_instances s1);
                 heap := alter mark_closed A (heap s1);
                 trace := EvTransportClose A :: EvDelItem k :: EvGetItem k :: trace s1 |})
    as (r & s' & Heq & Hcases).
  rewrite HB in Heq. simplify_eq.
  destruct Hcases as [(_ & _ & Hret)|(sub & [= ->] & _ & _ & Hheap & _ & _)].
  { destruct (Hret B eq_refl) as [_ Hlk]. simpl in Hlk.
    by rewrite lookup_delete_eq in Hlk. }
  simpl in *. rewrite length_alter in *.
  assert (HneBA : length (heap s1) <> A) by lia.
  destruct (heap s1 !! A) as [objA|] eqn:HhA; [|apply lookup_ge_None in HhA; lia].
  assert (HtA : _bus_type objA = Some k).
  { pose proof (Bus_new_shared_registered _ _ _ _ _ _ _ HA) as HregA.
    destruct (Hwf1 _ _ HregA) as (_ & obj & Hh & Ht & _). congruence. }
  rewrite (Bus_close_other A s' (mark_closed objA) k (length (heap s1))); try done.
  - by eexists.
  - rewrite Hheap. rewrite lookup_app_l by (by rewrite length_alter).
    by rewrite list_lookup_alter_eq, HhA.
Qed.

(** C6. Isolation: in a reachable state, a private acquisition of a
    recognised bus type always goes to the connection constructor; the
    only event of the call is that constructor call, so the registry is
    neither read nor written, and its contents are unchanged. When the
    constructor succeeds, the handle returned is a new object; it is not
    the registry's entry for any bus type, neither after the call nor
    after any later sequence of calls. *)
Theorem private_acquisition_isolated w cls k loop s0 :
  reachable s0 ->
  valid_bus_type k ->
  exists sub r s1,
    Bus_new w cls k true loop s0 = (r, s1) /\
    trace s1 = EvConnect sub k loop :: trace s0 /\
    _shared_instances s1 = _shared_instances s0 /\
    (w = ConnOk ->
     let p := length (heap s0) in
     r = Return p /\
     heap s0 !! p = None /\ is_Some (heap s1 !! p) /\
     ~ registered s1 p /\
     forall cs s2, run_script cs s1 = Some s2 -> ~ registered s2 p).
Proof.
  intros Hs0 Hk. pose proof (reachable_wf _ Hs0) as Hwf.
  assert (Hfresh : forall s1, _shared_instances s1 = _shared_instances s0 ->
            ~ registered s1 (length (heap s0))).
  { intros s1 Hreg [k' Hk']. rewrite Hreg in Hk'.
    destruct (Hwf _ _ Hk') as (_ & obj & Hh & _).
    apply lookup_lt_Some in Hh. lia. }
  destruct w as [|e].
  - destruct (Bus_new_builds cls k true loop s0 Hk) as [sub Hb]; [by left|].
    exists sub. do 2 eexists. split; [exact Hb|]. simpl.
    split_and!; try done. intros _.
    assert (Hlt : (length (heap s0) < length (heap s0 ++ [mkBusObj sub (Some k) false]))%nat).
    { rewrite length_app. simpl. lia. }
    split_and!; try done.
    + by apply lookup_ge_None.
    + by apply lookup_lt_is_Some.
    + by apply Hfresh.
    + intros cs s2 Hrun. eapply run_script_unregistered; [| |exact Hrun]; simpl.
      * exact Hlt.
      * by apply Hfresh.
  - destruct (Bus_new_raises e cls k true loop s0 Hk) as [sub Hb]; [by left|].
    exists sub. do 2 eexists. split; [exact Hb|]. simpl. by split_and!.
Qed.

(** C9. Registry liveness: after any sequence of constructor, getter
    and [close] calls from the initial state, an object held by the
    registry has never had [close] called on it, and its underlying
    connection is open. *)
Theorem registered_connections_are_live cs s k o :
  run_script cs initial_state = Some s ->
  _shared_instances s !! k = Some o ->
  (o ∉ closes cs) /\
  exists obj, heap s !! o = Some obj /\ closed obj = false.
Proof.
  intros Hrun Hk. split.
  - apply (run_script_closes cs initial_state s [] wf_initial) with (o := o).
    + constructor.
    + intros x _. apply not_elem_of_nil.
    + exact Hrun.
    + by exists k.
  - destruct (wf_run_script _ _ _ wf_initial Hrun _ _ Hk) as (_ & obj & Hh & _ & Hc).
    by exists obj.
Qed.

(** C4, as the code has it. For a private handle [p] of bus type [k],
    at any later point: [close] reads the registry entry of [k] for its
    identity test and never writes the registry, whose contents are the
    same after the call, whether it returns or raises. When the registry
    holds an entry for [k], the call returns and closes the underlying
    connection of [p]. *)
Theorem private_close_never_writes_registry w cls k loop s0 s1 p cs s2 :
  reachable s0 ->
  Bus_new w cls k true loop s0 = (Return p, s1) ->
  run_script cs s1 = Some s2 ->
  exists r s3 added,
    Bus_close p s2 = (r, s3) /\
    trace s3 = added ++ trace s2 /\
    EvGetItem k ∈ added /\
    Forall (fun e => is_registry_write e = false) added /\
    _shared_instances s3 = _shared_instances s2 /\
    (is_Some (_shared_instances s2 !! k) ->
     r = Return tt /\
     EvTransportClose p ∈ added /\
     closed <$> heap s3 !! p = Some true).
Proof.
  intros Hs0 Hnew Hrun. pose proof (reachable_wf _ Hs0) as Hwf.
  destruct (Bus_new_private_returns _ _ _ _ _ _ _ Hnew) as (-> & Hk & Hreg & sub & Hheap).
  assert (Hlt : (length (heap s0) < length (heap s1))%nat).
  { rewrite Hheap, length_app. simpl. lia. }
  assert (Hno1 : ~ registered s1 (length (heap s0))).
  { intros [k' Hk']. rewrite Hreg in Hk'.
    destruct (Hwf _ _ Hk') as (_ & obj & Hh & _). apply lookup_lt_Some in Hh. lia. }
  pose proof (run_script_unregistered _ _ _ _ Hlt Hno1 Hrun) as Hno2.
  destruct (run_script_bus_type cs s1 s2 (length (heap s0)) k) as (obj & Hh & Ht);
    [|done|].
  { eexists. rewrite Hheap. rewrite lookup_app_r by lia.
    rewrite Nat.sub_diag. by split. }
  destruct (_shared_instances s2 !! k) as [cur|] eqn:Hcur.
  - assert (Hne : cur <> length (heap s0)).
    { intros ->. apply Hno2. by exists k. }
    rewrite (Bus_close_other _ s2 obj k cur) by done.
    eexists (Return tt), _, [EvTransportClose (length (heap s0)); EvGetItem k].
    split; [done|]. simpl. split_and!; try done.
    + set_solver.
    + by repeat constructor.
    + intros _. split_and!; [done|set_solver|].
      by rewrite list_lookup_alter_eq, Hh.
  - rewrite (Bus_close_no_entry _ s2 obj k) by done.
    eexists (Raise (KeyError k)), _, [EvGetItem k].
    split; [done|]. simpl. split_and!; try done.
    + set_solver.
    + by repeat constructor.
Qed.

(** C3, as the code has it. [Bus.__new__] takes no lock, so the claim
    needs one condition on the interleaving: the thread that tests the
    registry first reaches its insertion before any other thread tests.
    If several threads make the first non-private acquisition of a
    recognised bus type [k] that has no entry, thread [i] runs lines
    90-112 before any other thread runs line 90, and the transport
    accepts its connection, then, however all further steps
    interleave, the connection constructor is called exactly once,
    every call that has returned has returned the handle built by
    thread [i], and once all calls have returned every thread holds
    that same handle. *)
Theorem first_acquire_single_connection k rqs i rq0 rest s :
  valid_bus_type k ->
  _shared_instances s !! k = None ->
  Forall (fun rq => rq_bus_type rq = k /\ rq_private rq = false) rqs ->
  rqs !! i = Some rq0 ->
  rq_w rq0 = ConnOk ->
  let pool' := fst (run_schedule ([i; i; i] ++ rest) (start <$> rqs) s) in
  let s' := snd (run_schedule ([i; i; i] ++ rest) (start <$> rqs) s) in
  connect_count (trace s') = S (connect_count (trace s)) /\
  (forall j rq r, pool' !! j = Some (rq, Finished r) -> r = Return (length (heap s))) /\
  (Forall (fun t => is_Some (outcome t)) pool' -> single_connection pool' s s').
Proof.
  intros Hk Hmiss Hall Hi Hw. cbv zeta.
  assert (Hrq0 : rq_bus_type rq0 = k /\ rq_private rq0 = false).
  { rewrite Forall_forall in Hall. apply Hall. by eapply list_elem_of_lookup_2. }
  destruct Hrq0 as [Hbt Hpr].
  rewrite run_schedule_app.
  rewrite (run_schedule_block _ _ rq0) by (by rewrite list_lookup_fmap, Hi).
  rewrite run_thread_Bus_new. rewrite Hw, Hpr, Hbt.
  destruct (Bus_new_builds (rq_cls rq0) k false (rq_mainloop rq0) s Hk)
    as [sub ->]; [by right|].
  cbn [fst snd publish probe app].
  set (h := length (heap s)).
  set (s1 := {| _shared_instances := <[k := h]> (_shared_instances s);
                heap := heap s ++ [mkBusObj sub (Some k) false];
                trace := EvSetItem k h :: EvConnect sub k (rq_mainloop rq0)
                         :: EvContains k :: trace s |}).
  set (pool1 := <[i := (rq0, Finished (Return h))]> (start <$> rqs)).
  destruct (run_schedule_settled k h rest pool1 s1) as (_ & Hpool & Hcount).
  { apply lookup_insert_eq. }
  { apply Forall_insert.
    - apply Forall_fmap. eapply Forall_impl; [exact Hall|].
      intros rq [? ?]. unfold settled. simpl. auto.
    - unfold settled. simpl. auto. }
  destruct (run_schedule rest pool1 s1) as [pool' s'] eqn:Hrun. simpl in *.
  assert (Hc : connect_count (trace s') = S (connect_count (trace s))).
  { by rewrite Hcount. }
  rewrite Forall_forall in Hpool.
  split_and!; [done| |].
  - intros j rq r Hj.
    destruct (Hpool (rq, Finished r)) as (_ & _ & [Hp|[Hp|Hp]]);
      [by eapply list_elem_of_lookup_2|done|done|]. simpl in Hp. congruence.
  - intros Hdone. split; [done|]. exists h.
    rewrite Forall_forall in Hdone |- *. intros [rq p] Hin.
    destruct (Hpool _ Hin) as (_ & _ & [Hp|[Hp|Hp]]); simpl in Hp; subst p.
    + by destruct (Hdone _ Hin).
    + by destruct (Hdone _ Hin).
    + done.
Qed.

(** ** Further properties of the module *)

Lemma perform_invoke c s : perform c s = snd (invoke c s).
Proof.
  destruct c; simpl; unfold bind;
    try (match goal with |- context [ ?m s ] => destruct (m s) as [[?|?] ?] end; done).
Qed.

(** A constructor or getter call is [Bus.__new__] at the bus type and
    privacy flag that [acquisition_of] names. *)
Lemma invoke_acquisition c k private :
  acquisition_of c = Some (k, private) ->
  exists w cls loop, forall s,
    invoke c s = (a <- Bus_new w cls k private loop ;; ret (Some a)) s.
Proof.
  destruct c as [ | w v pr l | | | | | | | ]; simpl;
    try (intros [= <- <-]; by do 3 eexists).
  destruct v; simpl; try done. intros [= <- <-]. by do 3 eexists.
Qed.

Lemma invoke_returns c k private s a s' :
  acquisition_of c = Some (k, private) ->
  invoke c s = (Return (Some a), s') ->
  exists w cls loop, Bus_new w cls k private loop s = (Return a, s').
Proof.
  intros Hc Hinv. destruct (invoke_acquisition c k private Hc) as (w & cls & loop & Heq).
  exists w, cls, loop. rewrite Heq in Hinv. unfold bind, ret in Hinv.
  destruct (Bus_new w cls k private loop s) as [[a'|e] s1]; by simplify_eq.
Qed.

(** The object that a successful constructor call appends. *)
Lemma Bus_new_builds_typed cls k private loop s sub :
  (forall s0, select_subclass k s0 = (Return sub, s0)) ->
  private = true \/ _shared_instances s !! k = None ->
  heap (snd (Bus_new ConnOk cls k private loop s))
  = heap s ++ [mkBusObj sub (Some k) false].
Proof.
  intros Hsub Hmiss. unfold Bus_new, bind.
  destruct private; simpl.
  - unfold_ops. rewrite Hsub. simpl.
    rewrite alter_app_r_alt by lia. rewrite Nat.sub_diag. done.
  - destruct Hmiss as [|Hmiss]; [done|]. unfold_ops.
    rewrite bool_decide_eq_false_2 by (rewrite Hmiss; intros [? ?]; done).
    rewrite Hsub. simpl.
    rewrite alter_app_r_alt by lia. rewrite Nat.sub_diag. done.
Qed.

(** Where a returned handle comes from: the registry, or the end of the
    heap. *)
Lemma Bus_new_returns w cls k private loop s a s' :
  Bus_new w cls k private loop s = (Return a, s') ->
  (private = false /\ _shared_instances s !! k = Some a /\ heap s' = heap s)
  \/
  (a = length (heap s) /\
   exists sub, (forall s0, select_subclass k s0 = (Return sub, s0)) /\
               heap s' = heap s ++ [mkBusObj sub (Some k) false]).
Proof.
  intros Hnew.
  destruct (Bus_new_cases w cls k private loop s) as (r & s1 & Heq & Hcases).
  rewrite Hnew in Heq. simplify_eq.
  destruct Hcases as [(_ & Hheap & Hret)|(sub0 & [= ->] & Hk & -> & _ & _ & Hmiss)].
  - left. destruct (Hret a eq_refl). by split_and!.
  - right. split; [done|].
    destruct (select_subclass_valid k Hk) as [sub Hsub]. exists sub. split; [done|].
    rewrite <- (Bus_new_builds_typed cls k private loop s sub Hsub).
    + by rewrite Hnew.
    + destruct private; [by left|right; by apply Hmiss].
Qed.

Lemma select_subclass_label k cls :
  (forall s0, select_subclass k s0 = (Return cls, s0)) ->
  valid_bus_type k /\ cls <> cls_Bus /\ class_label cls = bus_name k.
Proof.
  intros Hsel. specialize (Hsel initial_state). revert Hsel.
  unfold select_subclass, bus_name, valid_bus_type, ret, raise.
  destruct (Z.eqb_spec k BUS_SESSION); [intros [= <-]; auto|].
  destruct (Z.eqb_spec k BUS_SYSTEM); [intros [= <-]; auto|].
  destruct (Z.eqb_spec k BUS_STARTER); [intros [= <-]; auto 6|].
  done.
Qed.

Lemma heap_typed_initial : heap_typed initial_state.
Proof. intros o obj Ho. simpl in Ho. by rewrite lookup_nil in Ho. Qed.

Lemma heap_typed_Bus_new w cls k private loop s :
  heap_typed s -> heap_typed (snd (Bus_new w cls k private loop s)).
Proof.
  intros Hty. unfold heap_typed in *.
  destruct (Bus_new w cls k private loop s) as [[a|e] s'] eqn:Hnew; simpl.
  - destruct (Bus_new_returns _ _ _ _ _ _ _ _ Hnew)
      as [(_ & _ & ->)|(_ & sub & Hsub & ->)]; [done|].
    intros o obj Ho. apply lookup_app_Some in Ho as [Ho|[_ Ho]]; [by apply (Hty o)|].
    destruct (o - length (heap s))%nat; [|done]. simpl in Ho. simplify_eq.
    by exists k.
  - destruct (Bus_new_cases w cls k private loop s) as (r & s1 & Heq & Hcases).
    rewrite Hnew in Heq. simplify_eq.
    destruct Hcases as [(_ & -> & _)|(sub & ? & _)]; [done|done].
Qed.

Lemma heap_typed_Bus_close self s :
  heap_typed s -> heap_typed (snd (Bus_close self s)).
Proof.
  intros Hty o obj Ho.
  destruct (Bus_close_cases self s) as (r & s' & Heq & Hcases).
  rewrite Heq in Ho. simpl in Ho.
  destruct Hcases as [(_ & _ & Hh)|(_ & Hh & _)]; rewrite Hh in Ho; [by apply (Hty o)|].
  destruct (decide (self = o)) as [->|Hne].
  - rewrite list_lookup_alter_eq in Ho.
    destruct (heap s !! o) as [obj0|] eqn:Ho0; [|done]. simpl in Ho. simplify_eq.
    destruct (Hty o obj0 Ho0) as (t & Ht & Hsel). by exists t.
  - rewrite list_lookup_alter_ne in Ho by done. by apply (Hty o).
Qed.

Lemma reachable_heap_typed s : reachable s -> heap_typed s.
Proof.
  intros [cs Hcs]. revert Hcs.
  apply (run_script_invariant heap_typed); [done| | |apply heap_typed_initial].
  - intros. by apply heap_typed_Bus_new.
  - intros. by apply heap_typed_Bus_close.
Qed.

(** X1. The seven ways of asking for a bus share one instance per bus
    type: when a non-private constructor or getter call for bus type
    [k] has returned [a] and nothing is closed afterwards, any other
    non-private constructor or getter call for [k] returns [a] too,
    without calling the connection constructor and without changing
    registry or heap. *)
Theorem entry_points_share_instance c1 c2 k mid s0 s1 s2 a :
  acquisition_of c1 = Some (k, false) ->
  acquisition_of c2 = Some (k, false) ->
  invoke c1 s0 = (Return (Some a), s1) ->
  closes mid = [] ->
  run_script mid s1 = Some s2 ->
  invoke c2 s2
  = (Return (Some a), with_trace s2 (EvGetItem k :: EvContains k :: trace s2)).
Proof.
  intros Hc1 Hc2 Hinv Hmid Hrun.
  destruct (invoke_returns _ _ _ _ _ _ Hc1 Hinv) as (w1 & cls1 & loop1 & Hnew).
  destruct (invoke_acquisition c2 k false Hc2) as (w2 & cls2 & loop2 & ->).
  unfold bind. rewrite (Bus_new_hit _ _ _ _ _ a); [done|].
  apply (run_script_no_close (fun s => _shared_instances s !! k = Some a))
    with (cs := mid) (s := s1); try done.
  - intros. by apply Bus_new_keeps_entry.
  - by eapply Bus_new_shared_registered.
Qed.

(** X2. In a reachable state, whatever handle [Bus.__new__] returns,
    cached or new, it denotes an object whose connection is open, whose
    [_bus_type] is the requested bus type, and whose class is one of the
    three subclasses, never [Bus] itself, namely the class whose label
    [__repr__] prints for that bus type. *)
Theorem acquired_handle_is_open_instance w cls k private loop s a s' :
  reachable s ->
  Bus_new w cls k private loop s = (Return a, s') ->
  exists obj,
    heap s' !! a = Some obj /\
    _bus_type obj = Some k /\
    closed obj = false /\
    obj_class obj <> cls_Bus /\
    class_label (obj_class obj) = bus_name k.
Proof.
  intros Hs Hnew.
  destruct (Bus_new_returns _ _ _ _ _ _ _ _ Hnew)
    as [(_ & Hreg & ->)|(-> & sub & Hsub & ->)].
  - destruct (reachable_wf _ Hs _ _ Hreg) as (_ & obj & Hh & Ht & Hc).
    exists obj. split_and!; try done.
    + destruct (reachable_heap_typed _ Hs _ _ Hh) as (t & Ht' & Hsel).
      assert (t = k) by congruence. subst t.
      by destruct (select_subclass_label _ _ Hsel) as (_ & ? & _).
    + destruct (reachable_heap_typed _ Hs _ _ Hh) as (t & Ht' & Hsel).
      assert (t = k) by congruence. subst t.
      by destruct (select_subclass_label _ _ Hsel) as (_ & _ & ?).
  - exists (mkBusObj sub (Some k) false).
    destruct (select_subclass_label _ _ Hsub) as (_ & ? & ?).
    split_and!; try done.
    rewrite lookup_app_r by lia. by rewrite Nat.sub_diag.
Qed.

(** X3. When the three bus-type constants are pairwise different, each
    subclass constructor returns an instance of its own class, for
    either value of [private], cached or new; the class passed as [cls]
    plays no part. *)
Theorem subclass_constructor_returns_own_class w cls private loop s a s' :
  BUS_SYSTEM <> BUS_SESSION -> BUS_STARTER <> BUS_SESSION -> BUS_STARTER <> BUS_SYSTEM ->
  reachable s ->
  (SessionBus_new w cls private loop s = (Return a, s') ->
   obj_class <$> heap s' !! a = Some cls_SessionBus) /\
  (SystemBus_new w cls private loop s = (Return a, s') ->
   obj_class <$> heap s' !! a = Some cls_SystemBus) /\
  (StarterBus_new w cls private loop s = (Return a, s') ->
   obj_class <$> heap s' !! a = Some cls_StarterBus).
Proof.
  intros H1 H2 H3 Hs.
  assert (Hgen : forall k, Bus_new w cls k private loop s = (Return a, s') ->
            exists obj, heap s' !! a = Some obj /\
                        forall s0, select_subclass k s0 = (Return (obj_class obj), s0)).
  { intros k Hnew.
    destruct (Bus_new_returns _ _ _ _ _ _ _ _ Hnew)
      as [(_ & Hreg & ->)|(-> & sub & Hsub & ->)].
    - destruct (reachable_wf _ Hs _ _ Hreg) as (_ & obj & Hh & Ht & _).
      exists obj. split; [done|].
      destruct (reachable_heap_typed _ Hs _ _ Hh) as (t & Ht' & Hsel).
      assert (t = k) by congruence. by subst t.
    - exists (mkBusObj sub (Some k) false). split; [|done].
      rewrite lookup_app_r by lia. by rewrite Nat.sub_diag. }
  unfold SessionBus_new, SystemBus_new, StarterBus_new,
    TYPE_SESSION, TYPE_SYSTEM, TYPE_STARTER.
  split_and!; intros Hnew; destruct (Hgen _ Hnew) as (obj & -> & Hsel); simpl;
    specialize (Hsel initial_state); unfold select_subclass, ret in Hsel.
  - rewrite Z.eqb_refl in Hsel. congruence.
  - apply Z.eqb_neq in H1. rewrite H1, Z.eqb_refl in Hsel. congruence.
  - apply Z.eqb_neq in H2, H3. rewrite H2, H3, Z.eqb_refl in Hsel. congruence.
Qed.

(** X4. In a reachable state the registry's keys are among the three
    bus-type constants, so it never holds more than three entries. *)
Theorem registry_at_most_three s :
  reachable s ->
  dom (_shared_instances s) ⊆ {[BUS_SESSION; BUS_SYSTEM; BUS_STARTER]} /\
  (size (_shared_instances s) <= 3)%nat.
Proof.
  intros Hs.
  assert (Hdom : dom (_shared_instances s)
                 ⊆ ({[BUS_SESSION; BUS_SYSTEM; BUS_STARTER]} : gset Z)).
  { intros k Hk. apply elem_of_dom in Hk as [o Ho].
    destruct (reachable_wf _ Hs _ _ Ho) as [Hv _].
    destruct Hv as [-> | [-> | ->]]; set_solver. }
  split; [done|].
  assert (Hle : forall X Y : gset Z, (size (X ∪ Y) <= size X + size Y)%nat).
  { intros X Y. rewrite size_union_alt.
    assert (size (Y ∖ X) <= size Y)%nat; [|lia].
    apply subseteq_size. by apply subseteq_difference_l. }
  rewrite <- size_dom. etrans; [by apply subseteq_size|].
  pose proof (Hle ({[BUS_SESSION]} ∪ {[BUS_SYSTEM]}) {[BUS_STARTER]}) as H1.
  pose proof (Hle {[BUS_SESSION]} {[BUS_SYSTEM]}) as H2.
  rewrite !size_singleton in *. lia.
Qed.

Lemma Bus_new_close_count w cls k private loop s :
  transport_close_count (trace (snd (Bus_new w cls k private loop s)))
  = transport_close_count (trace s).
Proof.
  assert (Hgo : private = true \/ _shared_instances s !! k = None ->
            transport_close_count (trace (snd (Bus_new w cls k private loop s)))
            = transport_close_count (trace s)).
  { intros Hmiss. destruct (valid_bus_type_dec k) as [Hk|Hk].
    - destruct w as [|e].
      + destruct (Bus_new_builds cls k private loop s Hk Hmiss) as [sub ->].
        by destruct private.
      + destruct (Bus_new_raises e cls k private loop s Hk Hmiss) as [sub ->].
        by destruct private.
    - rewrite Bus_new_invalid by done. by destruct private. }
  destruct private; [by apply Hgo; left|].
  destruct (_shared_instances s !! k) as [o|] eqn:Hlk; [|by apply Hgo; right].
  by rewrite (Bus_new_hit _ _ _ _ _ o).
Qed.

(** X5. An acquisition disturbs nothing that exists: every registry
    entry present before the call is present and unchanged after it,
    entries of other bus types are exactly as before, every existing
    object is unchanged (in particular none is closed), and the
    transport close is never invoked. *)
Theorem acquisition_disturbs_nothing w cls k private loop s :
  let s' := snd (Bus_new w cls k private loop s) in
  (forall k' o, _shared_instances s !! k' = Some o -> _shared_instances s' !! k' = Some o) /\
  (forall k', k' <> k -> _shared_instances s' !! k' = _shared_instances s !! k') /\
  (forall o obj, heap s !! o = Some obj -> heap s' !! o = Some obj) /\
  transport_close_count (trace s') = transport_close_count (trace s).
Proof.
  simpl. split_and!.
  - intros k' o. apply Bus_new_keeps_entry.
  - intros k' Hne.
    destruct (Bus_new_cases w cls k private loop s) as (r & s' & -> & Hcases). simpl.
    destruct Hcases as [(-> & _)|(sub & _ & _ & _ & _ & -> & _)]; [done|].
    destruct private; [done|]. by rewrite lookup_insert_ne.
  - intros o obj. apply Bus_new_heap_lookup.
  - apply Bus_new_close_count.
Qed.

(** X6. [close] touches only the registry entry of the handle's own bus
    type and only the handle's own object: for a handle of bus type
    [t], the entries of every other bus type and every other object are
    exactly as before, no object is created, and the connection
    constructor is never called. *)
Theorem close_touches_only_its_own self s obj t :
  heap s !! self = Some obj ->
  _bus_type obj = Some t ->
  let s' := snd (Bus_close self s) in
  (forall k', k' <> t -> _shared_instances s' !! k' = _shared_instances s !! k') /\
  (forall o, o <> self -> heap s' !! o = heap s !! o) /\
  length (heap s') = length (heap s) /\
  connect_count (trace s') = connect_count (trace s).
Proof.
  intros Hh Ht. simpl.
  destruct (_shared_instances s !! t) as [cur|] eqn:Hreg.
  - destruct (decide (cur = self)) as [->|Hne].
    + rewrite (Bus_close_current self s obj t) by done. simpl. split_and!; try done.
      * intros k' Hk'. by rewrite lookup_delete_ne.
      * intros o Ho. by rewrite list_lookup_alter_ne.
      * apply length_alter.
    + rewrite (Bus_close_other self s obj t cur) by done. simpl. split_and!; try done.
      * intros o Ho. by rewrite list_lookup_alter_ne.
      * apply length_alter.
  - rewrite (Bus_close_no_entry self s obj t) by done. simpl. by split_and!.
Qed.

(** X7. In a reachable state, [close] on an existing handle has exactly
    two outcomes, decided by the registry entry of the handle's bus
    type [t], which is always one of the three recognised types. If an
    entry exists the call returns, the handle's connection is closed
    and the handle is not registered afterwards. If none exists the
    call raises [KeyError] for [t] and leaves every object as it was,
    so the connection stays open if it was. [AttributeError] never
    occurs. *)
Theorem close_returns_iff_entry self s :
  reachable s ->
  (self < length (heap s))%nat ->
  exists obj t,
    heap s !! self = Some obj /\ _bus_type obj = Some t /\ valid_bus_type t /\
    ((is_Some (_shared_instances s !! t) /\
      fst (Bus_close self s) = Return tt /\
      closed <$> heap (snd (Bus_close self s)) !! self = Some true /\
      ~ registered (snd (Bus_close self s)) self)
     \/
     (_shared_instances s !! t = None /\
      fst (Bus_close self s) = Raise (KeyError t) /\
      heap (snd (Bus_close self s)) = heap s)).
Proof.
  intros Hs Hlt.
  destruct (lookup_lt_is_Some_2 _ _ Hlt) as [obj Hh].
  destruct (reachable_heap_typed _ Hs _ _ Hh) as (t & Ht & Hsel).
  destruct (select_subclass_label _ _ Hsel) as (Hv & _).
  exists obj, t. split_and!; try done.
  destruct (_shared_instances s !! t) as [cur|] eqn:Hreg.
  - left. split; [by eexists|].
    split_and!.
    + destruct (decide (cur = self)) as [->|Hne].
      * by rewrite (Bus_close_current self s obj t).
      * by rewrite (Bus_close_other self s obj t cur).
    + destruct (decide (cur = self)) as [->|Hne].
      * rewrite (Bus_close_current self s obj t) by done. simpl.
        by rewrite list_lookup_alter_eq, Hh.
      * rewrite (Bus_close_other self s obj t cur) by done. simpl.
        by rewrite list_lookup_alter_eq, Hh.
    + apply Bus_close_unregisters. by apply reachable_wf.
  - right. rewrite (Bus_close_no_entry self s obj t) by done. by split_and!.
Qed.

Lemma perform_acquisition c k private s :
  acquisition_of c = Some (k, private) ->
  exists w cls loop, perform c s = snd (Bus_new w cls k private loop s).
Proof.
  destruct c as [ | w v pr l | | | | | | | ]; simpl;
    try (intros [= <- <-]; by do 3 eexists).
  destruct v; simpl; try done. intros [= <- <-]. by do 3 eexists.
Qed.

(** A bus type without an entry stays so along a script that makes no
    non-private acquisition of it. *)
Lemma run_script_no_entry k cs :
  forall s s',
    Forall (fun c => acquisition_of c <> Some (k, false)) cs ->
    _shared_instances s !! k = None ->
    run_script cs s = Some s' ->
    _shared_instances s' !! k = None.
Proof.
  induction cs as [|c cs IH]; intros s s' Hall Hnone Hrun; simpl in Hrun.
  - by simplify_eq.
  - destruct (in_scope c s); [|done].
    inversion Hall as [|? ? Hc Hall']; subst.
    apply (IH (perform c s)); [done| |done].
    destruct (acquisition_of c) as [[k0 pr]|] eqn:Hacq.
    + destruct (perform_acquisition c k0 pr s Hacq) as (w & cls & loop & ->).
      destruct (_shared_instances (snd (Bus_new w cls k0 pr loop s)) !! k) as [o|] eqn:Hlk;
        [|done].
      apply Bus_new_registry in Hlk as [Hlk|(_ & -> & -> & _)]; [congruence|done].
    + destruct c as [ | w v pr l | | | | | | | self]; try done; simpl.
      * destruct v as [z| | |items|items]; [done|..];
          match goal with
          | |- context [ Bus_new_any ?w ?c ?v ?p ?l ?s ] =>
              destruct (Bus_new_any_other w c v p l s) as (e & -> & _); [done|]
          end; done.
      * destruct (_shared_instances (snd (Bus_close self s)) !! k) as [o|] eqn:Hlk; [|done].
        apply Bus_close_registry_shrinks in Hlk. congruence.
Qed.

(** X8. [close] is not idempotent on a shared handle: in a reachable
    state, once the handle returned by a non-private acquisition of [k]
    has been closed, and as long as no non-private acquisition of [k]
    follows, a further [close] on that handle raises [KeyError] at the
    registry lookup, whatever else was called in between; the transport
    close is not invoked again and nothing changes but the trace. *)
Theorem second_close_raises_KeyError w cls k loop s0 s1 A mid s3 :
  reachable s0 ->
  Bus_new w cls k false loop s0 = (Return A, s1) ->
  Forall (fun c => acquisition_of c <> Some (k, false)) mid ->
  run_script mid (snd (Bus_close A s1)) = Some s3 ->
  Bus_close A s3 = (Raise (KeyError k), with_trace s3 (EvGetItem k :: trace s3)).
Proof.
  intros Hs0 HA Hmid Hrun.
  destruct (close_after_shared_acquisition _ _ _ _ _ _ _ (reachable_wf _ Hs0) HA)
    as (Hk & Hlt & Hwf1 & Hclose).
  destruct (lookup_lt_is_Some_2 _ _ Hlt) as [objA HhA].
  assert (HtA : _bus_type objA = Some k).
  { pose proof (Bus_new_shared_registered _ _ _ _ _ _ _ HA) as HregA.
    destruct (Hwf1 _ _ HregA) as (_ & obj & Hh & Ht & _). congruence. }
  destruct (run_script_bus_type mid (snd (Bus_close A s1)) s3 A k) as (obj3 & Hh3 & Ht3);
    [|done|].
  { exists (mark_closed objA). rewrite Hclose. simpl. split; [|done].
    by rewrite list_lookup_alter_eq, HhA. }
  apply (Bus_close_no_entry A s3 obj3 k); try done.
  eapply run_script_no_entry; [exact Hmid| |exact Hrun].
  rewrite Hclose. simpl. apply lookup_delete_eq.
Qed.

(** X9. [__repr__] of an object created by this module, in any
    reachable state, returns without changing the state, and the text
    it returns names the object's class and the bus label that belongs
    to that class: [SessionBus] with [session], [SystemBus] with
    [system], [StarterBus] with [starter]. The fallback
    ['unknown bus type'] is never printed. *)
Theorem repr_names_class_and_label module_name id_of s o obj :
  reachable s ->
  heap s !! o = Some obj ->
  Bus_repr module_name id_of o s
  = (Return ("<" +:+ module_name +:+ "." +:+ class_name (obj_class obj)
             +:+ " (" +:+ class_label (obj_class obj)
             +:+ ") at " +:+ HexString.of_Z (id_of o) +:+ ">"), s) /\
  class_label (obj_class obj) <> "unknown bus type".
Proof.
  intros Hs Ho.
  destruct (reachable_heap_typed _ Hs _ _ Ho) as (t & Ht & Hsel).
  destruct (select_subclass_label _ _ Hsel) as (_ & Hcls & Hlabel).
  split.
  - unfold Bus_repr, getattr_class, bind, ret. unfold_ops. rewrite Ho.
    destruct obj as [c t' b]; simpl in *; subst t'. simpl. rewrite Ho. simpl.
    by rewrite Hlabel.
  - by destruct (obj_class obj).
Qed.

Lemma bus_name_cases t :
  bus_name t = "session" \/ bus_name t = "system" \/ bus_name t = "starter"
  \/ bus_name t = "unknown bus type".
Proof.
  unfold bus_name.
  destruct (t =? BUS_SESSION), (t =? BUS_SYSTEM), (t =? BUS_STARTER); auto.
Qed.

Lemma string_snoc_inj (a b : string) (c : Ascii.ascii) :
  a +:+ String c "" = b +:+ String c "" -> a = b.
Proof.
  revert b. induction a as [|x a IH]; intros [|y b]; simpl; intros Heq.
  - done.
  - injection Heq as _ Heq. by destruct b.
  - injection Heq as _ Heq. by destruct a.
  - injection Heq as -> Heq. f_equal. by apply IH.
Qed.

(** X10. [__repr__] tells objects apart: if it returns the same text
    for two objects, then their identity tokens are equal, and so are
    their classes. *)
Theorem repr_determines_identity module_name id_of s o1 o2 r s1 s2 :
  Bus_repr module_name id_of o1 s = (Return r, s1) ->
  Bus_repr module_name id_of o2 s = (Return r, s2) ->
  id_of o1 = id_of o2 /\
  obj_class <$> heap s !! o1 = obj_class <$> heap s !! o2.
Proof.
  unfold Bus_repr, getattr_class, getattr_bus_type, bind, ret.
  destruct (heap s !! o1) as [[c1 [t1|] b1]|] eqn:E1; try done.
  destruct (heap s !! o2) as [[c2 [t2|] b2]|] eqn:E2; try done.
  simpl. rewrite E1, E2. simpl. intros H1 H2.
  assert (Heq := eq_trans (f_equal fst H2) (eq_sym (f_equal fst H1))).
  simpl in Heq. clear H1 H2. injection Heq as Heq.
  apply (inj (String.append _)) in Heq.
  apply (inj (String.append _)) in Heq.
  apply (inj (String.append _)) in Heq.
  assert (Hcls : c2 = c1).
  { pose proof (f_equal (fun x => (String.get 0 x, String.get 1 x)) Heq) as Hobs.
    destruct c1, c2; simpl in Hobs; try discriminate Hobs; reflexivity. }
  subst c2.
  apply (inj (String.append _)) in Heq.
  apply (inj (String.append _)) in Heq.
  assert (Hname : bus_name t2 = bus_name t1).
  { pose proof (f_equal (String.get 1) Heq) as Hobs.
    destruct (bus_name_cases t1) as [E | [E | [E | E]]]; rewrite E in Hobs |- *;
      destruct (bus_name_cases t2) as [F | [F | [F | F]]]; rewrite F in Hobs |- *;
      simpl in Hobs; try discriminate Hobs; reflexivity. }
  rewrite Hname in Heq.
  apply (inj (String.append _)) in Heq.
  apply (inj (String.append _)) in Heq.
  apply string_snoc_inj in Heq.
  split; [|done].
  rewrite <- (HexString.to_Z_of_Z (id_of o1)), <- (HexString.to_Z_of_Z (id_of o2)).
  by rewrite Heq.
Qed.

(** One step of a thread keeps the registry invariant and the
    thread's own handle in order, and leaves every object as it was. *)
Lemma step_thread_ok rq p s :
  wf s -> thread_ok s (rq, p) ->
  wf (snd (step_thread rq p s)) /\
  thread_ok (snd (step_thread rq p s)) (rq, fst (step_thread rq p s)) /\
  (forall o obj, heap s !! o = Some obj -> heap (snd (step_thread rq p s)) !! o = Some obj).
Proof.
  intros Hwf Hok. destruct rq as [w cls k pr l]. destruct p as [| | |bus|r]; simpl.
  - destruct pr; simpl.
    + unfold ret. simpl. split_and!; try done.
    + unfold_ops. destruct (bool_decide _); simpl; split_and!; try done.
  - unfold_ops. destruct (_shared_instances s !! k) as [o|] eqn:Hlk; simpl.
    + split_and!; try done. intros h [= <-]. simpl.
      destruct (Hwf _ _ Hlk) as (Hv & obj & Hh & Ht & Hc). split; [done|]. by exists obj.
    + split_and!; try done.
  - destruct (valid_bus_type_dec k) as [Hk|Hk].
    + destruct (select_subclass_valid k Hk) as [sub Hsub].
      unfold_ops. rewrite Hsub. simpl. destruct w as [|e]; simpl.
      * rewrite alter_app_r_alt by lia. rewrite Nat.sub_diag. simpl.
        split_and!.
        -- intros k' o Hk'. destruct (Hwf _ _ Hk') as (Hv & obj & Hh & Hrest).
           split; [done|]. exists obj. split; [|done].
           by apply lookup_app_l_Some.
        -- intros h [= <-]. simpl. split; [done|].
           exists (mkBusObj sub (Some k) false). split; [|done].
           by apply list_lookup_middle.
        -- intros o obj Ho. by apply lookup_app_l_Some.
      * split_and!; try done.
    + unfold bind. rewrite select_subclass_invalid by done. simpl. by split_and!.
  - destruct (Hok bus eq_refl) as (Hv & obj & Hh & Ht & Hc). simpl in *.
    destruct pr; simpl.
    + unfold_ops. split_and!; try done;
        try (intros h [= <-]; simpl; split; [done|]; by exists obj).
    + unfold_ops. split_and!; try done;
        try (intros h [= <-]; simpl; split; [done|]; by exists obj).
      intros k' o Hk'. simpl in Hk'.
      apply lookup_insert_Some in Hk' as [[<- <-]|[Hne Hk']].
      * split; [done|]. by exists obj.
      * by apply Hwf.
  - by split_and!.
Qed.

Lemma thread_ok_mono s s' t :
  (forall o obj, heap s !! o = Some obj -> heap s' !! o = Some obj) ->
  thread_ok s t -> thread_ok s' t.
Proof.
  intros Hmono Hok h Hh. destruct (Hok h Hh) as (Hv & obj & Ho & Hrest).
  split; [done|]. exists obj. split; [by apply Hmono|done].
Qed.

Lemma run_schedule_ok sched :
  forall pool s,
    wf s -> Forall (thread_ok s) pool ->
    wf (snd (run_schedule sched pool s)) /\
    Forall (thread_ok (snd (run_schedule sched pool s))) (fst (run_schedule sched pool s)).
Proof.
  induction sched as [|i sched IH]; intros pool s Hwf Hpool; simpl; [done|].
  destruct (pool !! i) as [[rq p]|] eqn:Hi; [|by apply IH].
  destruct (step_thread_ok rq p s Hwf) as (Hwf' & Hok' & Hmono).
  { rewrite Forall_forall in Hpool. apply Hpool. by eapply list_elem_of_lookup_2. }
  destruct (step_thread rq p s) as [p' s'] eqn:Hstep. simpl in *.
  apply IH; [done|].
  apply Forall_insert; [|done].
  eapply Forall_impl; [exact Hpool|]. intros t. by apply thread_ok_mono.
Qed.

(** X11. Racing acquisitions break the singleton property but not the
    registry: from a reachable state, for any requests and any
    interleaving of the threads that make them, the registry invariant
    holds at the end (every entry is keyed by a recognised bus type and
    holds an existing, open object whose [_bus_type] is its key), and
    every thread whose call has returned a handle holds an existing,
    open object of the bus type it asked for. *)
Theorem racing_acquisitions_keep_registry_wf rqs sched s :
  reachable s ->
  let pool' := fst (run_schedule sched (start <$> rqs) s) in
  let s' := snd (run_schedule sched (start <$> rqs) s) in
  wf s' /\
  forall i rq h,
    pool' !! i = Some (rq, Finished (Return h)) ->
    exists obj, heap s' !! h = Some obj /\
                _bus_type obj = Some (rq_bus_type rq) /\ closed obj = false.
Proof.
  intros Hs. simpl.
  destruct (run_schedule_ok sched (start <$> rqs) s) as [Hwf Hpool].
  - by apply reachable_wf.
  - apply Forall_fmap. apply Forall_true. intros rq h Hh. discriminate Hh.
  - split; [done|]. intros i rq h Hi.
    rewrite Forall_forall in Hpool.
    destruct (Hpool (rq, Finished (Return h))) with (h := h) as (_ & obj & Hobj);
      [by eapply list_elem_of_lookup_2|done|].
    by exists obj.
Qed.

(** A step calls the constructor at most once, and only a thread that
    has not called it yet does. *)
Lemma step_thread_connects rq p s :
  (connect_count (trace (snd (step_thread rq p s)))
   + may_connect (rq, fst (step_thread rq p s))
   <= connect_count (trace s) + may_connect (rq, p))%nat.
Proof.
  destruct rq as [w cls k pr l]. destruct p as [| | |bus|r]; simpl.
  - destruct pr; simpl.
    + unfold ret, may_connect. simpl. lia.
    + unfold_ops. destruct (bool_decide _); unfold may_connect, connect_count; simpl; lia.
  - unfold_ops.
    destruct (_shared_instances s !! k); unfold may_connect, connect_count; simpl; lia.
  - destruct (valid_bus_type_dec k) as [Hk|Hk].
    + destruct (select_subclass_valid k Hk) as [sub Hsub].
      unfold_ops. rewrite Hsub. simpl.
      destruct w as [|e]; unfold may_connect, connect_count; simpl; lia.
    + unfold bind. rewrite select_subclass_invalid by done.
      unfold may_connect. simpl. lia.
  - destruct pr; unfold_ops; unfold may_connect, connect_count; simpl; lia.
  - lia.
Qed.

Lemma sum_list_with_insert (f : thread -> nat) (pool : list thread) i t t' :
  pool !! i = Some t ->
  (sum_list_with f (<[i := t']> pool) + f t = sum_list_with f pool + f t')%nat.
Proof.
  revert i. induction pool as [|x pool IH]; intros [|i] Hi; simpl in *; try done.
  - simplify_eq. lia.
  - specialize (IH i Hi). lia.
Qed.

Lemma run_schedule_connects sched :
  forall pool s,
    (connect_count (trace (snd (run_schedule sched pool s)))
     + sum_list_with may_connect (fst (run_schedule sched pool s))
     <= connect_count (trace s) + sum_list_with may_connect pool)%nat.
Proof.
  induction sched as [|i sched IH]; intros pool s; simpl; [done|].
  destruct (pool !! i) as [[rq p]|] eqn:Hi; [|by apply IH].
  pose proof (step_thread_connects rq p s) as Hstep.
  destruct (step_thread rq p s) as [p' s'] eqn:Hst. simpl in Hstep.
  etrans; [apply IH|].
  pose proof (sum_list_with_insert may_connect pool i (rq, p) (rq, p') Hi) as Hsum.
  lia.
Qed.

(** X12. Whatever the requests and however the threads interleave, the
    connection constructor is called at most once per thread. *)
Theorem racing_acquisitions_connect_once_each rqs sched s :
  (connect_count (trace (snd (run_schedule sched (start <$> rqs) s)))
   <= connect_count (trace s) + length rqs)%nat.
Proof.
  assert (Hsum : sum_list_with may_connect (start <$> rqs) = length rqs).
  { induction rqs as [|rq rqs IH]; [done|].
    rewrite fmap_cons. cbn [sum_list_with]. rewrite IH. reflexivity. }
  pose proof (run_schedule_connects sched (start <$> rqs) s) as Hrun.
  lia.
Qed.

Lemma run_script_heap_length cs :
  forall s s', run_script cs s = Some s' -> (length (heap s) <= length (heap s'))%nat.
Proof.
  induction cs as [|c cs IH]; intros s s' Hrun; simpl in Hrun.
  - by simplify_eq.
  - destruct (in_scope c s); [|done]. etrans; [|by apply IH].
    destruct (perform_cases c s)
      as [[_ (w & cls & k & pr & l & ->)]|[[self [-> ->]]|[_ [tr ->]]]].
    + apply Bus_new_heap_length.
    + by rewrite Bus_close_heap_length.
    + done.
Qed.

(** Every handle that a script closes exists at the end of the script. *)
Lemma closes_allocated cs :
  forall s s', run_script cs s = Some s' ->
    Forall (fun o => (o < length (heap s'))%nat) (closes cs).
Proof.
  induction cs as [|c cs IH]; intros s s' Hrun; simpl in Hrun.
  - constructor.
  - destruct (in_scope c s) eqn:Hscope; [|done].
    destruct (perform_cases c s) as [[Hc _]|[[self [-> Hp]]|[Hc _]]].
    + assert (Hcl : closes (c :: cs) = closes cs) by (by destruct c).
      rewrite Hcl. by eapply IH.
    + simpl. constructor; [|by eapply IH].
      simpl in Hscope. apply bool_decide_eq_true_1 in Hscope.
      pose proof (run_script_heap_length _ _ _ Hrun) as Hlen.
      rewrite Hp, Bus_close_heap_length in Hlen. lia.
    + assert (Hcl : closes (c :: cs) = closes cs) by (by destruct c).
      rewrite Hcl. by eapply IH.
Qed.

(** X13. A closed handle is never handed out again: after any sequence
    of constructor, getter and [close] calls from the initial state,
    whatever handle [Bus.__new__] returns next, private or not, [close]
    has never been called on it. *)
Theorem acquisition_never_returns_closed_handle cs s w cls k private loop a s' :
  run_script cs initial_state = Some s ->
  Bus_new w cls k private loop s = (Return a, s') ->
  a ∉ closes cs.
Proof.
  intros Hrun Hnew.
  destruct (Bus_new_returns _ _ _ _ _ _ _ _ Hnew) as [(_ & Hreg & _)|(-> & _)].
  - apply (run_script_closes cs initial_state s [] wf_initial) with (o := a).
    + constructor.
    + intros x _. apply not_elem_of_nil.
    + exact Hrun.
    + by exists k.
  - intros Hin. pose proof (closes_allocated _ _ _ Hrun) as Hall.
    rewrite Forall_forall in Hall. specialize (Hall _ Hin). lia.
Qed.

End Bus.

(** ** Concrete runs

    The runs below use libdbus' values of the bus-type constants. *)

Abbreviation Bus_new_dbus :=
  (Bus_new DBUS_BUS_SESSION DBUS_BUS_SYSTEM DBUS_BUS_STARTER).
Abbreviation run_script_dbus :=
  (run_script DBUS_BUS_SESSION DBUS_BUS_SYSTEM DBUS_BUS_STARTER).
Abbreviation run_schedule_dbus :=
  (run_schedule DBUS_BUS_SESSION DBUS_BUS_SYSTEM DBUS_BUS_STARTER).
Abbreviation reachable_dbus :=
  (reachable DBUS_BUS_SESSION DBUS_BUS_SYSTEM DBUS_BUS_STARTER).
Abbreviation Bus_new_any_dbus :=
  (Bus_new_any DBUS_BUS_SESSION DBUS_BUS_SYSTEM DBUS_BUS_STARTER).

Lemma reachable_initial : reachable_dbus initial_state.
Proof. by exists []. Qed.

(** Two system-bus acquisitions, with a private session bus and a failed
    starter-bus request in between, return the same handle. *)
Lemma singleton_shared_handle_witness :
  let s1 := snd (Bus_new_dbus ConnOk cls_Bus DBUS_BUS_SYSTEM false None initial_state) in
  let s2 := default initial_state
              (run_script_dbus [Call_SessionBus ConnOk true None;
                                Call_get_starter (ConnRaises (ConnectError 1)) false] s1) in
  _shared_instances s1 !! DBUS_BUS_SYSTEM = Some 0%nat /\
  _shared_instances s2 !! DBUS_BUS_SYSTEM = Some 0%nat /\
  Bus_new_dbus (ConnRaises (ConnectError 2)) cls_SystemBus DBUS_BUS_SYSTEM false None s2
  = (Return 0%nat,
     with_trace s2 (EvGetItem DBUS_BUS_SYSTEM :: EvContains DBUS_BUS_SYSTEM :: trace s2)) /\
  exists obj, heap s2 !! 0%nat = Some obj /\
              _bus_type obj = Some DBUS_BUS_SYSTEM /\ closed obj = false.
Proof.
  intros s1 s2.
  destruct (singleton_shared_handle DBUS_BUS_SESSION DBUS_BUS_SYSTEM DBUS_BUS_STARTER
              ConnOk (ConnRaises (ConnectError 2))
              cls_Bus cls_SystemBus None None DBUS_BUS_SYSTEM
              [Call_SessionBus ConnOk true None;
               Call_get_starter (ConnRaises (ConnectError 1)) false]
              initial_state s1 s2 0%nat)
    as (Hreg1 & Hreg2 & Hsecond & Hobj).
  - reflexivity.
  - reflexivity.
  - reflexivity.
  - split; [exact Hreg1|]. split; [exact Hreg2|]. split; [exact Hsecond|].
    apply Hobj. exists []. reflexivity.
Defined.

(** A session-bus request whose connection is refused. *)
Lemma failed_construction_propagates_witness :
  exists s',
    Bus_new_dbus (ConnRaises (ConnectError 7)) cls_SessionBus DBUS_BUS_SESSION false (Some 3%nat)
      initial_state = (Raise (ConnectError 7), s') /\
    _shared_instances s' = _shared_instances initial_state /\
    heap s' = heap initial_state /\
    connect_count (trace s') = S (connect_count (trace initial_state)) /\
    (false = false -> _shared_instances s' !! DBUS_BUS_SESSION = None).
Proof.
  apply (failed_construction_propagates DBUS_BUS_SESSION DBUS_BUS_SYSTEM DBUS_BUS_STARTER
           (ConnectError 7) cls_SessionBus DBUS_BUS_SESSION false (Some 3%nat) initial_state).
  - left. reflexivity.
  - right. reflexivity.
Defined.

(** Bus type 3 is not a bus type. *)
Lemma unrecognised_bus_type_rejected_witness :
  exists e s',
    Bus_new_any_dbus ConnOk cls_Bus (PyInt 3) false None initial_state = (Raise e, s') /\
    _shared_instances s' = _shared_instances initial_state /\
    heap s' = heap initial_state /\
    connect_count (trace s') = connect_count (trace initial_state) /\
    (false = true \/ hashable (PyInt 3) = true ->
     forall shown, format_arg (PyInt 3) = Some shown -> e = ValueError shown) /\
    (forall z, PyInt 3 = PyInt z -> e = ValueError (PyInt z)).
Proof.
  apply (unrecognised_bus_type_rejected DBUS_BUS_SESSION DBUS_BUS_SYSTEM DBUS_BUS_STARTER
           ConnOk cls_Bus (PyInt 3) false None initial_state).
  - exists []. reflexivity.
  - discriminate.
  - discriminate.
  - discriminate.
Defined.

(** A private session-bus handle closed while no shared session bus
    exists. *)
Lemma close_without_entry_raises_KeyError_witness :
  let s1 := snd (Bus_new_dbus ConnOk cls_SessionBus DBUS_BUS_SESSION true None
                   initial_state) in
  exists s',
    Bus_close 0%nat s1 = (Raise (KeyError DBUS_BUS_SESSION), s') /\
    trace s' = EvGetItem DBUS_BUS_SESSION :: trace s1 /\
    heap s' = heap s1 /\
    _shared_instances s' = _shared_instances s1.
Proof.
  intros s1.
  apply (close_without_entry_raises_KeyError 0%nat s1
           (mkBusObj cls_SessionBus (Some DBUS_BUS_SESSION) false) DBUS_BUS_SESSION).
  - reflexivity.
  - reflexivity.
  - reflexivity.
Defined.

(** Session bus acquired, closed, acquired again. *)
Lemma eviction_then_fresh_instance_witness :
  let s1 := snd (Bus_new_dbus ConnOk cls_SessionBus DBUS_BUS_SESSION false None
                   initial_state) in
  exists s2 B s3,
    Bus_close 0%nat s1 = (Return tt, s2) /\
    _shared_instances s2 !! DBUS_BUS_SESSION = None /\
    Bus_new_dbus ConnOk cls_Bus DBUS_BUS_SESSION false None s2 = (Return B, s3) /\
    B <> 0%nat /\
    heap s2 !! B = None /\ is_Some (heap s3 !! B) /\
    _shared_instances s3 !! DBUS_BUS_SESSION = Some B /\
    connect_count (trace s3) = S (connect_count (trace s2)).
Proof.
  intros s1.
  apply (eviction_then_fresh_instance DBUS_BUS_SESSION DBUS_BUS_SYSTEM DBUS_BUS_STARTER
           ConnOk cls_SessionBus cls_Bus None None DBUS_BUS_SESSION initial_state s1 0%nat).
  - exists []. reflexivity.
  - reflexivity.
Defined.

(** Session bus acquired as [0], closed, acquired again as [1]; then [0]
    is closed once more. *)
Lemma stale_close_keeps_replacement_witness :
  let s1 := snd (Bus_new_dbus ConnOk cls_SessionBus DBUS_BUS_SESSION false None
                   initial_state) in
  let s3 := snd (Bus_new_dbus ConnOk cls_SessionBus DBUS_BUS_SESSION false None
                   (snd (Bus_close 0%nat s1))) in
  exists s4,
    Bus_close 0%nat s3 = (Return tt, s4) /\
    1%nat <> 0%nat /\
    trace s4 = EvTransportClose 0%nat :: EvGetItem DBUS_BUS_SESSION :: trace s3 /\
    _shared_instances s4 = _shared_instances s3 /\
    _shared_instances s4 !! DBUS_BUS_SESSION = Some 1%nat.
Proof.
  intros s1 s3.
  apply (stale_close_keeps_replacement DBUS_BUS_SESSION DBUS_BUS_SYSTEM DBUS_BUS_STARTER
           ConnOk ConnOk cls_SessionBus cls_SessionBus None None DBUS_BUS_SESSION
           initial_state s1 s3 0%nat 1%nat).
  - exists []. reflexivity.
  - reflexivity.
  - reflexivity.
Defined.

(** A private system-bus connection requested while a shared one
    exists. *)
Lemma private_acquisition_isolated_witness :
  let s0 := snd (Bus_new_dbus ConnOk cls_SystemBus DBUS_BUS_SYSTEM false None
                   initial_state) in
  exists sub r s1,
    Bus_new_dbus ConnOk cls_SystemBus DBUS_BUS_SYSTEM true None s0 = (r, s1) /\
    trace s1 = EvConnect sub DBUS_BUS_SYSTEM None :: trace s0 /\
    _shared_instances s1 = _shared_instances s0 /\
    (ConnOk = ConnOk ->
     let p := length (heap s0) in
     r = Return p /\
     heap s0 !! p = None /\ is_Some (heap s1 !! p) /\
     ~ registered s1 p /\
     forall cs s2, run_script_dbus cs s1 = Some s2 -> ~ registered s2 p).
Proof.
  intros s0.
  apply (private_acquisition_isolated DBUS_BUS_SESSION DBUS_BUS_SYSTEM DBUS_BUS_STARTER
           ConnOk cls_SystemBus DBUS_BUS_SYSTEM None s0).
  - exists [Call_SystemBus ConnOk false None]. reflexivity.
  - right. left. reflexivity.
Defined.

(** Shared session bus [0] closed and replaced by [1]; the registry
    holds [1], which was never closed. *)
Lemma registered_connections_are_live_witness :
  let cs := [Call_get_session ConnOk false; Call_close 0%nat;
             Call_SessionBus ConnOk false None; Call_close 0%nat] in
  let s := default initial_state (run_script_dbus cs initial_state) in
  (1%nat ∉ closes cs) /\
  exists obj, heap s !! 1%nat = Some obj /\ closed obj = false.
Proof.
  intros cs s.
  apply (registered_connections_are_live DBUS_BUS_SESSION DBUS_BUS_SYSTEM DBUS_BUS_STARTER
           cs s DBUS_BUS_SESSION 1%nat).
  - reflexivity.
  - reflexivity.
Defined.

(** A private session-bus handle closed while a shared session bus
    exists. *)
Lemma private_close_never_writes_registry_witness :
  let s1 := snd (Bus_new_dbus ConnOk cls_SessionBus DBUS_BUS_SESSION true None
                   initial_state) in
  let s2 := default initial_state
              (run_script_dbus [Call_SessionBus ConnOk false None] s1) in
  exists r s3 added,
    Bus_close 0%nat s2 = (r, s3) /\
    trace s3 = added ++ trace s2 /\
    EvGetItem DBUS_BUS_SESSION ∈ added /\
    Forall (fun e => is_registry_write e = false) added /\
    _shared_instances s3 = _shared_instances s2 /\
    (is_Some (_shared_instances s2 !! DBUS_BUS_SESSION) ->
     r = Return tt /\
     EvTransportClose 0%nat ∈ added /\
     closed <$> heap s3 !! 0%nat = Some true).
Proof.
  intros s1 s2.
  apply (private_close_never_writes_registry
           DBUS_BUS_SESSION DBUS_BUS_SYSTEM DBUS_BUS_STARTER
           ConnOk cls_SessionBus DBUS_BUS_SESSION None initial_state s1 0%nat
           [Call_SessionBus ConnOk false None] s2).
  - exists []. reflexivity.
  - reflexivity.
  - reflexivity.
Defined.

(** Three threads asking for the system bus: thread 1 runs its call,
    then threads 0 and 2 alternate. *)
Lemma first_acquire_single_connection_witness :
  let rq := mkRequest ConnOk cls_SystemBus DBUS_BUS_SYSTEM false None in
  let sched := ([1; 1; 1] ++ [0; 2; 0; 2])%nat in
  let pool' := fst (run_schedule_dbus sched (start <$> [rq; rq; rq]) initial_state) in
  let s' := snd (run_schedule_dbus sched (start <$> [rq; rq; rq]) initial_state) in
  connect_count (trace s') = 1%nat /\
  single_connection pool' initial_state s'.
Proof.
  intros rq sched pool' s'.
  destruct (first_acquire_single_connection
              DBUS_BUS_SESSION DBUS_BUS_SYSTEM DBUS_BUS_STARTER
              DBUS_BUS_SYSTEM [rq; rq; rq] 1%nat rq [0; 2; 0; 2]%nat initial_state)
    as (Hcount & _ & Hsingle).
  - right. left. reflexivity.
  - reflexivity.
  - repeat constructor.
  - reflexivity.
  - reflexivity.
  - split; [exact Hcount|]. apply Hsingle.
    vm_compute. repeat constructor; by eexists.
Defined.

(** ** Concrete runs for the further properties *)

Abbreviation invoke_dbus :=
  (invoke DBUS_BUS_SESSION DBUS_BUS_SYSTEM DBUS_BUS_STARTER).
Abbreviation Bus_repr_dbus :=
  (Bus_repr DBUS_BUS_SESSION DBUS_BUS_SYSTEM DBUS_BUS_STARTER).

(** [Bus.get_session()], then a private system bus, then
    [Bus(BUS_SESSION)]. *)
Lemma entry_points_share_instance_witness :
  let c1 := Call_get_session ConnOk false in
  let c2 := Call_Bus (ConnRaises (ConnectError 1)) DBUS_BUS_SESSION false (Some 4%nat) in
  let s1 := snd (invoke_dbus c1 initial_state) in
  let s2 := default initial_state
              (run_script_dbus [Call_SystemBus ConnOk true None] s1) in
  invoke_dbus c2 s2
  = (Return (Some 0%nat),
     with_trace s2 (EvGetItem DBUS_BUS_SESSION :: EvContains DBUS_BUS_SESSION :: trace s2)).
Proof.
  intros c1 c2 s1 s2.
  apply (entry_points_share_instance DBUS_BUS_SESSION DBUS_BUS_SYSTEM DBUS_BUS_STARTER
           c1 c2 DBUS_BUS_SESSION [Call_SystemBus ConnOk true None]
           initial_state s1 s2 0%nat).
  - reflexivity.
  - reflexivity.
  - reflexivity.
  - reflexivity.
  - reflexivity.
Defined.

(** A private system-bus connection from the initial state. *)
Lemma acquired_handle_is_open_instance_witness :
  let s' := snd (Bus_new_dbus ConnOk cls_Bus DBUS_BUS_SYSTEM true None initial_state) in
  exists obj,
    heap s' !! 0%nat = Some obj /\
    _bus_type obj = Some DBUS_BUS_SYSTEM /\
    closed obj = false /\
    obj_class obj <> cls_Bus /\
    class_label (obj_class obj)
    = bus_name DBUS_BUS_SESSION DBUS_BUS_SYSTEM DBUS_BUS_STARTER DBUS_BUS_SYSTEM.
Proof.
  intros s'.
  apply (acquired_handle_is_open_instance DBUS_BUS_SESSION DBUS_BUS_SYSTEM DBUS_BUS_STARTER
           ConnOk cls_Bus DBUS_BUS_SYSTEM true None initial_state 0%nat s').
  - exists []. reflexivity.
  - reflexivity.
Defined.

(** The three subclass constructors on the initial state, with libdbus'
    constants. *)
Lemma subclass_constructor_returns_own_class_witness :
  let s' := snd (StarterBus_new DBUS_BUS_SESSION DBUS_BUS_SYSTEM DBUS_BUS_STARTER
                   ConnOk cls_StarterBus false None initial_state) in
  (SessionBus_new DBUS_BUS_SESSION DBUS_BUS_SYSTEM DBUS_BUS_STARTER
     ConnOk cls_StarterBus false None initial_state = (Return 0%nat, s') ->
   obj_class <$> heap s' !! 0%nat = Some cls_SessionBus) /\
  (SystemBus_new DBUS_BUS_SESSION DBUS_BUS_SYSTEM DBUS_BUS_STARTER
     ConnOk cls_StarterBus false None initial_state = (Return 0%nat, s') ->
   obj_class <$> heap s' !! 0%nat = Some cls_SystemBus) /\
  (StarterBus_new DBUS_BUS_SESSION DBUS_BUS_SYSTEM DBUS_BUS_STARTER
     ConnOk cls_StarterBus false None initial_state = (Return 0%nat, s') ->
   obj_class <$> heap s' !! 0%nat = Some cls_StarterBus).
Proof.
  intros s'.
  apply (subclass_constructor_returns_own_class
           DBUS_BUS_SESSION DBUS_BUS_SYSTEM DBUS_BUS_STARTER
           ConnOk cls_StarterBus false None initial_state 0%nat s').
  - discriminate.
  - discriminate.
  - discriminate.
  - exists []. reflexivity.
Defined.

(** All three shared buses acquired. *)
Lemma registry_at_most_three_witness :
  let s := default initial_state
             (run_script_dbus [Call_get_session ConnOk false; Call_get_system ConnOk false;
                               Call_get_starter ConnOk false] initial_state) in
  dom (_shared_instances s) ⊆ {[DBUS_BUS_SESSION; DBUS_BUS_SYSTEM; DBUS_BUS_STARTER]} /\
  (size (_shared_instances s) <= 3)%nat.
Proof.
  intros s.
  apply (registry_at_most_three DBUS_BUS_SESSION DBUS_BUS_SYSTEM DBUS_BUS_STARTER s).
  exists [Call_get_session ConnOk false; Call_get_system ConnOk false;
          Call_get_starter ConnOk false].
  reflexivity.
Defined.

(** The shared session bus closed while a shared system bus exists. *)
Lemma close_touches_only_its_own_witness :
  let s := default initial_state
             (run_script_dbus [Call_get_session ConnOk false; Call_get_system ConnOk false]
                initial_state) in
  let s' := snd (Bus_close 0%nat s) in
  (forall k', k' <> DBUS_BUS_SESSION ->
     _shared_instances s' !! k' = _shared_instances s !! k') /\
  (forall o, o <> 0%nat -> heap s' !! o = heap s !! o) /\
  length (heap s') = length (heap s) /\
  connect_count (trace s') = connect_count (trace s).
Proof.
  intros s.
  apply (close_touches_only_its_own 0%nat s
           (mkBusObj cls_SessionBus (Some DBUS_BUS_SESSION) false) DBUS_BUS_SESSION).
  - reflexivity.
  - reflexivity.
Defined.

(** A private session-bus handle, with no shared session bus. *)
Lemma close_returns_iff_entry_witness :
  let s := snd (Bus_new_dbus ConnOk cls_SessionBus DBUS_BUS_SESSION true None
                  initial_state) in
  exists obj t,
    heap s !! 0%nat = Some obj /\ _bus_type obj = Some t /\
    valid_bus_type DBUS_BUS_SESSION DBUS_BUS_SYSTEM DBUS_BUS_STARTER t /\
    ((is_Some (_shared_instances s !! t) /\
      fst (Bus_close 0%nat s) = Return tt /\
      closed <$> heap (snd (Bus_close 0%nat s)) !! 0%nat = Some true /\
      ~ registered (snd (Bus_close 0%nat s)) 0%nat)
     \/
     (_shared_instances s !! t = None /\
      fst (Bus_close 0%nat s) = Raise (KeyError t) /\
      heap (snd (Bus_close 0%nat s)) = heap s)).
Proof.
  intros s.
  apply (close_returns_iff_entry DBUS_BUS_SESSION DBUS_BUS_SYSTEM DBUS_BUS_STARTER 0%nat s).
  - exists [Call_SessionBus ConnOk true None]. reflexivity.
  - simpl. lia.
Defined.

(** The shared system bus closed; a private system bus and a shared
    session bus follow; then the first handle is closed again. *)
Lemma second_close_raises_KeyError_witness :
  let s1 := snd (Bus_new_dbus ConnOk cls_SystemBus DBUS_BUS_SYSTEM false None
                   initial_state) in
  let mid := [Call_SystemBus ConnOk true None; Call_get_session ConnOk false] in
  let s3 := default initial_state (run_script_dbus mid (snd (Bus_close 0%nat s1))) in
  Bus_close 0%nat s3
  = (Raise (KeyError DBUS_BUS_SYSTEM),
     with_trace s3 (EvGetItem DBUS_BUS_SYSTEM :: trace s3)).
Proof.
  intros s1 mid s3.
  apply (second_close_raises_KeyError DBUS_BUS_SESSION DBUS_BUS_SYSTEM DBUS_BUS_STARTER
           ConnOk cls_SystemBus DBUS_BUS_SYSTEM None initial_state s1 0%nat mid s3).
  - exists []. reflexivity.
  - reflexivity.
  - repeat constructor; discriminate.
  - reflexivity.
Defined.

(** The shared starter bus, printed. *)
Lemma repr_names_class_and_label_witness :
  let s := snd (Bus_new_dbus ConnOk cls_Bus DBUS_BUS_STARTER false None initial_state) in
  let id_of := fun o : nat => (3054 + Z.of_nat o)%Z in
  Bus_repr_dbus "dbus._dbus" id_of 0%nat s
  = (Return ("<" +:+ "dbus._dbus" +:+ "." +:+ class_name cls_StarterBus
             +:+ " (" +:+ class_label cls_StarterBus
             +:+ ") at " +:+ HexString.of_Z (id_of 0%nat) +:+ ">"), s) /\
  class_label cls_StarterBus <> "unknown bus type".
Proof.
  intros s id_of.
  apply (repr_names_class_and_label DBUS_BUS_SESSION DBUS_BUS_SYSTEM DBUS_BUS_STARTER
           "dbus._dbus" id_of s 0%nat (mkBusObj cls_StarterBus (Some DBUS_BUS_STARTER) false)).
  - exists [Call_Bus ConnOk DBUS_BUS_STARTER false None]. reflexivity.
  - reflexivity.
Defined.

(** Two private session-bus objects that print alike can only have the
    same identity token. *)
Lemma repr_determines_identity_witness :
  let s := default initial_state
             (run_script_dbus [Call_SessionBus ConnOk true None;
                               Call_SessionBus ConnOk true None] initial_state) in
  let id_of := fun _ : nat => 255%Z in
  id_of 0%nat = id_of 1%nat /\
  obj_class <$> heap s !! 0%nat = obj_class <$> heap s !! 1%nat.
Proof.
  intros s id_of.
  apply (repr_determines_identity DBUS_BUS_SESSION DBUS_BUS_SYSTEM DBUS_BUS_STARTER
           "dbus._dbus" id_of s 0%nat 1%nat
           "<dbus._dbus.SessionBus (session) at 0xff>" s s).
  - reflexivity.
  - reflexivity.
Defined.

(** Two threads racing for the session bus. *)
Lemma racing_acquisitions_keep_registry_wf_witness :
  let rq := mkRequest ConnOk cls_SessionBus DBUS_BUS_SESSION false None in
  let sched := [0; 1; 0; 1; 0; 1]%nat in
  let pool' := fst (run_schedule_dbus sched (start <$> [rq; rq]) initial_state) in
  let s' := snd (run_schedule_dbus sched (start <$> [rq; rq]) initial_state) in
  wf DBUS_BUS_SESSION DBUS_BUS_SYSTEM DBUS_BUS_STARTER s' /\
  forall i rq0 h,
    pool' !! i = Some (rq0, Finished (Return h)) ->
    exists obj, heap s' !! h = Some obj /\
                _bus_type obj = Some (rq_bus_type rq0) /\ closed obj = false.
Proof.
  intros rq sched.
  apply (racing_acquisitions_keep_registry_wf
           DBUS_BUS_SESSION DBUS_BUS_SYSTEM DBUS_BUS_STARTER [rq; rq] sched initial_state).
  exists []. reflexivity.
Defined.

(** Session bus acquired and closed; the next acquisition returns a
    handle that was never closed. *)
Lemma acquisition_never_returns_closed_handle_witness :
  let cs := [Call_get_session ConnOk false; Call_close 0%nat] in
  let s := default initial_state (run_script_dbus cs initial_state) in
  1%nat ∉ closes cs.
Proof.
  intros cs s.
  apply (acquisition_never_returns_closed_handle
           DBUS_BUS_SESSION DBUS_BUS_SYSTEM DBUS_BUS_STARTER
           cs s ConnOk cls_SessionBus DBUS_BUS_SESSION false None 1%nat
           (snd (Bus_new_dbus ConnOk cls_SessionBus DBUS_BUS_SESSION false None s))).
  - reflexivity.
  - reflexivity.
Defined.

(** ** Where the code departs from the specification *)

(** C3 fails: two threads ask for the session bus, which has no entry,
    and are switched after each step. Both miss at line 90, both
    construct a connection, and the second insertion overwrites the
    first: two constructor calls, two different handles. *)
Lemma interleaved_first_acquire_connects_twice :
  let rq := mkRequest ConnOk cls_SessionBus DBUS_BUS_SESSION false None in
  _shared_instances initial_state !! DBUS_BUS_SESSION = None /\
  exists pool' s',
    run_schedule_dbus [0; 1; 0; 1; 0; 1]%nat [start rq; start rq] initial_state
    = (pool', s') /\
    outcome <$> pool' = [Some (Return 0%nat); Some (Return 1%nat)] /\
    connect_count (trace s') = 2%nat /\
    ~ single_connection pool' initial_state s'.
Proof.
  intros rq. split; [reflexivity|].
  do 2 eexists. split; [reflexivity|]. split; [reflexivity|]. split; [reflexivity|].
  intros [Hcount _]. vm_compute in Hcount. discriminate.
Qed.

(** C8 fails on values that are not integers: [Bus([])] hashes the
    list for the membership test of line 90 and raises [TypeError]
    there, and [Bus((1, 2), private=True)] raises [TypeError] while
    formatting the message at line 105. Neither error is a
    [ValueError]. *)
Lemma unhashable_bus_type_raises_TypeError :
  PyList [] <> PyInt DBUS_BUS_SESSION /\ PyList [] <> PyInt DBUS_BUS_SYSTEM /\
  PyList [] <> PyInt DBUS_BUS_STARTER /\
  Bus_new_any_dbus ConnOk cls_Bus (PyList []) false None initial_state
  = (Raise (TypeError (PyList [])), initial_state) /\
  Bus_new_any_dbus ConnOk cls_Bus (PyTuple [PyInt 1; PyInt 2]) true None initial_state
  = (Raise (TypeError (PyTuple [PyInt 1; PyInt 2])), initial_state) /\
  ~ (exists shown s',
       Bus_new_any_dbus ConnOk cls_Bus (PyList []) false None initial_state
       = (Raise (ValueError shown), s')).
Proof.
  split_and!; try discriminate; try reflexivity.
  intros (shown & s' & H). discriminate H.
Qed.

(** C4 fails: a private session-bus handle is closed. With an empty
    registry the call looks [_shared_instances] up, raises [KeyError]
    there and never reaches the transport close. With a shared session
    bus registered the call returns, after the same lookup. *)
Lemma private_close_reads_registry :
  exists s1,
    Bus_new_dbus ConnOk cls_SessionBus DBUS_BUS_SESSION true None initial_state
    = (Return 0%nat, s1) /\
    Bus_close 0%nat s1
    = (Raise (KeyError DBUS_BUS_SESSION),
       with_trace s1 (EvGetItem DBUS_BUS_SESSION :: trace s1)) /\
    ~ close_ignores_registry 0%nat s1 /\
    exists s2,
      run_script_dbus [Call_SessionBus ConnOk false None] s1 = Some s2 /\
      trace (snd (Bus_close 0%nat s2))
      = EvTransportClose 0%nat :: EvGetItem DBUS_BUS_SESSION :: trace s2 /\
      ~ close_ignores_registry 0%nat s2.
Proof.
  eexists. split; [reflexivity|]. split; [reflexivity|]. split.
  - intros (s' & added & Hclose & _). vm_compute in Hclose. discriminate.
  - eexists. split; [reflexivity|]. split; [reflexivity|].
    intros (s' & added & Hclose & Htr & Hall & _).
    vm_compute in Hclose. injection Hclose as <-. simpl in Htr.
    change (?a :: ?b :: ?l) with ([a; b] ++ l) in Htr at 1.
    apply app_inv_tail in Htr. subst added.
    apply Forall_cons in Hall as [_ Hall]. apply Forall_cons in Hall as [Hall _].
    discriminate.
Qed.
